(** * Subtitle cleaner and download session of [app.py]

    A shallow embedding of [clean_subtitles], [cleanup_files],
    [download_audio_and_subtitles] and [download].

    Text is a [list ascii]: a Python [str] whose code points are below 256.
    The character classes are those of CPython for that range. *)

From Stdlib Require Import List Bool Arith Lia ZArith.
From Stdlib Require Import Strings.Ascii Strings.String.
From Stdlib Require Import Numbers.DecimalString.
Import ListNotations.


(** ** Python outcomes *)

Module Py.

(** The exception classes the program meets.  Every class but
    [KeyboardInterrupt] derives from [Exception]. *)
Inductive exn : Type :=
| DownloadError (msg : string)
| HTTPException (status_code : Z) (detail : string)
| IndexError
| OSError (msg : string)
| UnicodeDecodeError (msg : string)
| KeyboardInterrupt.

Definition is_DownloadError (e : exn) : bool :=
  match e with DownloadError _ => true | _ => false end.

Definition is_HTTPException (e : exn) : bool :=
  match e with HTTPException _ _ => true | _ => false end.

Definition is_Exception (e : exn) : bool :=
  match e with KeyboardInterrupt => false | _ => true end.

(** A call either returns a value or raises. *)
Inductive outcome (A : Type) : Type :=
| Return (a : A)
| Raise (e : exn).

Arguments Return {A} a.
Arguments Raise {A} e.

Definition bind {A B} (m : outcome A) (k : A -> outcome B) : outcome B :=
  match m with
  | Return a => k a
  | Raise e => Raise e
  end.

End Py.

Import Py.

Declare Scope py_scope.
Delimit Scope py_scope with py.
Notation "x <- m ;; k" := (Py.bind m (fun x => k))
  (at level 61, m at next level, right associativity) : py_scope.

(** ** Text *)

Definition str := list ascii.

Definition lit (s : string) : str := list_ascii_of_string s.

Definition chr (n : nat) : ascii := ascii_of_nat n.

Definition LF : ascii := chr 10.
Definition CR : ascii := chr 13.
Definition SP : ascii := chr 32.

Definition code_in (c : ascii) (codes : list nat) : bool :=
  existsb (Nat.eqb (nat_of_ascii c)) codes.

(** [str.isspace] on one character, which is also the class [\s] of [re]
    on [str] patterns: TAB LF VT FF CR, FS GS RS US, SPACE, NEL, NBSP. *)
Definition isspace (c : ascii) : bool :=
  code_in c [9; 10; 11; 12; 13; 28; 29; 30; 31; 32; 133; 160].

(** The line boundaries of [str.splitlines]: LF VT FF CR, FS GS RS, NEL. *)
Definition is_linebreak (c : ascii) : bool :=
  code_in c [10; 11; 12; 13; 28; 29; 30; 133].

(** The class [\d] of [re]: the decimal digits. *)
Definition isdigit (c : ascii) : bool :=
  (48 <=? nat_of_ascii c) && (nat_of_ascii c <=? 57).

Definition is_char (a c : ascii) : bool := Ascii.eqb a c.
Definition not_char (a c : ascii) : bool := negb (Ascii.eqb a c).

Fixpoint take_while (p : ascii -> bool) (s : str) : str :=
  match s with
  | c :: t => if p c then c :: take_while p t else []
  | [] => []
  end.

Fixpoint drop_while (p : ascii -> bool) (s : str) : str :=
  match s with
  | c :: t => if p c then drop_while p t else s
  | [] => []
  end.

(** [s.startswith(prefix)] *)
Fixpoint startswith (prefix s : str) : bool :=
  match prefix, s with
  | [], _ => true
  | _ :: _, [] => false
  | a :: p, c :: t => Ascii.eqb a c && startswith p t
  end.

(** [s.splitlines()]: a line ends at a line boundary, CR LF counts as one
    boundary, and no empty line follows the last boundary. *)
Fixpoint splitlines (s : str) : list str :=
  match s with
  | [] => []
  | c :: t =>
      if is_linebreak c then
        [] :: (if Ascii.eqb c CR then
                 match t with
                 | d :: t' => if Ascii.eqb d LF then splitlines t' else splitlines t
                 | [] => []
                 end
               else splitlines t)
      else
        match splitlines t with
        | [] => [[c]]
        | l :: ls => (c :: l) :: ls
        end
  end.

(** ['\n'.join(lines)] *)
Fixpoint join_lines (lines : list str) : str :=
  match lines with
  | [] => []
  | [l] => l
  | l :: ls => l ++ LF :: join_lines ls
  end.

(** [s.strip()] *)
Definition lstrip (s : str) : str := drop_while isspace s.
Definition rstrip (s : str) : str := rev (drop_while isspace (rev s)).
Definition strip (s : str) : str := rstrip (lstrip s).

(** ** Regular expressions

    The four patterns of [clean_subtitles] are sequences of single
    characters from a class and of greedy [+] repetitions of a class.  In
    each of them the repetition is followed by nothing or by a character
    outside the repeated class, so the longest run is the only run the
    backtracking matcher of [re] can accept. *)

Module Re.

Inductive atom : Type :=
| One (p : ascii -> bool)
| Many1 (p : ascii -> bool).

Definition regex := list atom.

(** Length of the match of [r] at the start of [s]. *)
Fixpoint match_len (r : regex) (s : str) : option nat :=
  match r with
  | [] => Some 0
  | One p :: r' =>
      match s with
      | c :: t => if p c then option_map S (match_len r' t) else None
      | [] => None
      end
  | Many1 p :: r' =>
      match s with
      | c :: t =>
          if p c then
            option_map (fun k => S (List.length (take_while p t) + k))
                       (match_len r' (drop_while p t))
          else None
      | [] => None
      end
  end.

(** The scan of [re.sub]: [skip] characters of the current match are still
    to be passed over. *)
Fixpoint sub_from (r : regex) (repl : str) (skip : nat) (s : str) : str :=
  match s with
  | [] => []
  | c :: t =>
      match skip with
      | S k => sub_from r repl k t
      | O =>
          match match_len r s with
          | Some (S n) => repl ++ sub_from r repl n t
          | _ => c :: sub_from r repl 0 t
          end
      end
  end.

(** [re.sub(r, repl, s)]: leftmost matches, not overlapping. *)
Definition sub (r : regex) (repl : str) (s : str) : str :=
  sub_from r repl 0 s.

Definition chars (s : string) : regex :=
  map (fun a => One (is_char a)) (list_ascii_of_string s).

Definition digits (n : nat) : regex := repeat (One isdigit) n.

(** [<[^>]+>] *)
Definition tag : regex :=
  chars "<" ++ [Many1 (not_char ">")] ++ chars ">".

(** [\d{2}:\d{2}:\d{2}\.\d{3}] *)
Definition clock : regex :=
  digits 2 ++ chars ":" ++ digits 2 ++ chars ":" ++ digits 2 ++ chars "."
    ++ digits 3.

(** [\d{2}:\d{2}:\d{2}\.\d{3} --> \d{2}:\d{2}:\d{2}\.\d{3}] *)
Definition timestamp : regex := clock ++ chars " --> " ++ clock.

(** [align:start position:[^%]+%] *)
Definition align : regex :=
  chars "align:start position:" ++ [Many1 (not_char "%")] ++ chars "%".

(** [\s+] *)
Definition spaces : regex := [Many1 isspace].

(** [r] matches somewhere in [s]. *)
Fixpoint occurs (r : regex) (s : str) : bool :=
  match match_len r s with
  | Some _ => true
  | None => match s with
            | [] => false
            | _ :: t => occurs r t
            end
  end.

End Re.

(** ** [clean_subtitles] *)

Open Scope py_scope.

(** [lines[0]] *)
Definition first_line (lines : list str) : outcome str :=
  match lines with
  | [] => Raise IndexError
  | l :: _ => Return l
  end.

(** [lines.pop(0)], giving the list that is left. *)
Definition pop_first (lines : list str) : outcome (list str) :=
  match lines with
  | [] => Raise IndexError
  | _ :: ls => Return ls
  end.

(** The truth value of a list. *)
Definition nonempty (lines : list str) : bool :=
  match lines with [] => false | _ => true end.

(** [if lines[0].startswith(prefix): lines.pop(0)] *)
Definition pop_if_startswith (prefix : string) (lines : list str)
  : outcome (list str) :=
  l0 <- first_line lines ;;
  if startswith (lit prefix) l0 then pop_first lines else Return lines.

(** Lines 18 to 25. *)
Definition strip_header (lines : list str) : outcome (list str) :=
  if nonempty lines then
    lines <- pop_if_startswith "WEBVTT" lines ;;
    lines <- (if nonempty lines then pop_if_startswith "Kind:" lines
              else Return lines) ;;
    if nonempty lines then pop_if_startswith "Language:" lines
    else Return lines
  else Return lines.

(** Lines 31 to 35. *)
Definition remove_tags (s : str) : str := Re.sub Re.tag [] s.
Definition remove_timestamps (s : str) : str := Re.sub Re.timestamp [] s.
Definition remove_align (s : str) : str := Re.sub Re.align [] s.
Definition collapse (s : str) : str := Re.sub Re.spaces [SP] s.

Definition scrub (s : str) : str :=
  strip (collapse (remove_align (remove_timestamps (remove_tags s)))).

Definition clean_subtitles (subtitles : str) : outcome str :=
  lines <- strip_header (splitlines subtitles) ;;
  Return (scrub (join_lines lines)).

Definition scenario_a : str :=
  lit "WEBVTT" ++ [LF] ++ lit "Kind: captions" ++ [LF] ++ lit "Language: en"
    ++ [LF; LF]
    ++ lit "00:00:01.000 --> 00:00:02.000 align:start position:0%" ++ [LF]
    ++ lit "Hello <c>world</c>" ++ [LF].


(** Plain text with whitespace of several kinds. *)
Definition plain_sample : str :=
  [SP; chr 9] ++ lit "Hello" ++ [CR; LF; SP] ++ lit "big  world" ++ [LF].

(** Header lines in another order than the usual one. *)
Definition swapped_header : str :=
  lit "WEBVTT" ++ [LF] ++ lit "Language: en" ++ [LF] ++ lit "Kind: captions"
    ++ [LF] ++ lit "Hello" ++ [LF].

(** A document with no "Kind:" line in its header. *)
Definition no_kind_sample : str :=
  lit "WEBVTT" ++ [LF] ++ lit "Language: en" ++ [LF; LF]
    ++ lit "Kind: of  blue" ++ [LF].

(** ** The workspace on disk *)

Module Fs.

(** A directory, or a file with the text that reading it gives. *)
Inductive node : Type :=
| Dir
| File (text : str).

(** Paths that exist, each with what is there. *)
Definition t := list (string * node).

Fixpoint lookup (p : string) (fs : t) : option node :=
  match fs with
  | [] => None
  | (q, n) :: rest => if String.eqb q p then Some n else lookup p rest
  end.

(** [os.path.exists(p)] *)
Definition path_exists (fs : t) (p : string) : bool :=
  match lookup p fs with Some _ => true | None => false end.

(** [os.path.isfile(p)] *)
Definition isfile (fs : t) (p : string) : bool :=
  match lookup p fs with Some (File _) => true | _ => false end.

(** [os.path.join(a, b)] *)
Definition join (a b : string) : string :=
  if String.prefix "/" b then b
  else if String.eqb a "" then b
  else if Ascii.eqb (List.last (list_ascii_of_string a) "/"%char) "/"
       then (a ++ b)%string
       else (a ++ "/" ++ b)%string.

(** [q] is [root] or lies below it. *)
Definition under (root q : string) : bool :=
  String.eqb root q || String.prefix (root ++ "/") q.

(** What is left when the tree at [root] is removed. *)
Definition remove_tree (root : string) (fs : t) : t :=
  filter (fun e => negb (under root (fst e))) fs.

(** The proper ancestors of [p], given the part [pre] already read. *)
Fixpoint parents_from (pre p : string) : list string :=
  match p with
  | EmptyString => []
  | String c rest =>
      (if Ascii.eqb c "/" && negb (String.eqb pre "") then [pre] else [])
        ++ parents_from (pre ++ String c "") rest
  end.

Definition add_dir (fs : t) (p : string) : t :=
  if path_exists fs p then fs else (p, Dir) :: fs.

(** The directory [p] and its missing ancestors are created. *)
Definition make_dirs (p : string) (fs : t) : t :=
  fold_left add_dir (parents_from "" p ++ [p]) fs.

End Fs.

(** ** Calls that change the disk and may raise *)

Definition M (A : Type) : Type := Fs.t -> outcome A * Fs.t.

Definition ret {A} (a : A) : M A := fun fs => (Return a, fs).

Definition raise {A} (e : exn) : M A := fun fs => (Raise e, fs).

Definition mbind {A B} (m : M A) (k : A -> M B) : M B :=
  fun fs =>
    match m fs with
    | (Return a, fs') => k a fs'
    | (Raise e, fs') => (Raise e, fs')
    end.

Definition lift {A} (o : outcome A) : M A := fun fs => (o, fs).

Definition get_fs : M Fs.t := fun fs => (Return fs, fs).

Declare Scope m_scope.
Delimit Scope m_scope with M.
Notation "x <-- m ;; k" := (mbind m (fun x => k))
  (at level 61, m at next level, right associativity) : m_scope.
Notation "m ;;; k" := (mbind m (fun _ => k))
  (at level 61, right associativity) : m_scope.

(** One [except] clause: the class it names and its body. *)
Definition clause (A : Type) : Type := (exn -> bool) * (exn -> M A).

Fixpoint dispatch {A} (clauses : list (clause A)) (e : exn) : M A :=
  match clauses with
  | [] => raise e
  | (cls, body) :: rest => if cls e then body e else dispatch rest e
  end.

(** [try: body  except ...: ...]: the first clause whose class the
    exception belongs to runs; with none, the exception goes on. *)
Definition try_except {A} (body : M A) (clauses : list (clause A)) : M A :=
  fun fs =>
    match body fs with
    | (Return a, fs') => (Return a, fs')
    | (Raise e, fs') => dispatch clauses e fs'
    end.

(** [try: body  finally: fin]: [fin] runs on every exit of [body]; when
    [fin] raises, its exception is the one that leaves the statement. *)
Definition try_finally {A} (body : M A) (fin : M unit) : M A :=
  fun fs =>
    match body fs with
    | (r, fs') =>
        match fin fs' with
        | (Return _, fs'') => (r, fs'')
        | (Raise e, fs'') => (Raise e, fs'')
        end
    end.

(** What the program does not decide: the run of yt-dlp from entering to
    leaving its [with] block, which may write files and may raise; the
    errors the file system calls raise; and [str(e)]. *)
Record env : Type := {
  extract_info : string -> string -> M unit;
  makedirs_error : option exn;
  read_error : option exn;
  rmtree_error : option exn;
  exn_text : exn -> string
}.

(** [os.makedirs(p)] *)
Definition makedirs (E : env) (p : string) : M unit :=
  fun fs =>
    match makedirs_error E with
    | Some e => (Raise e, fs)
    | None => (Return tt, Fs.make_dirs p fs)
    end.

(** [shutil.rmtree(p)]: it removes the tree, or it raises; of a call that
    raises the model keeps the case in which nothing was removed yet. *)
Definition rmtree (E : env) (p : string) : M unit :=
  fun fs =>
    match rmtree_error E with
    | Some e => (Raise e, fs)
    | None => (Return tt, Fs.remove_tree p fs)
    end.

(** [open(p, 'r', encoding='utf-8')] and [f.read()] *)
Definition read_text (E : env) (p : string) : M str :=
  fun fs =>
    match read_error E with
    | Some e => (Raise e, fs)
    | None =>
        match Fs.lookup p fs with
        | Some (Fs.File text) => (Return text, fs)
        | _ => (Raise (OSError "cannot open"), fs)
        end
    end.

(** ** The download session *)

Open Scope m_scope.

(** The dictionary [{'subtitles': clean_text}]. *)
Record response : Type := { subtitles : str }.

Definition cleanup_files (E : env) (output_path : string) : M unit :=
  fs <-- get_fs ;;
  if Fs.path_exists fs output_path then rmtree E output_path else ret tt.

Definition not_found : exn :=
  HTTPException 404 "No subtitles found for this video.".

Definition extraction_failed : exn :=
  HTTPException 400 "Failed to download video or subtitles.".

Definition internal_error (E : env) (e : exn) : exn :=
  HTTPException 500 ("An error occurred: " ++ exn_text E e).

(** Lines 51 and 52. *)
Definition ensure_dir (E : env) (output_path : string) : M unit :=
  fs <-- get_fs ;;
  if negb (Fs.path_exists fs output_path) then makedirs E output_path
  else ret tt.

Definition download_audio_and_subtitles (E : env) (youtube_url : string)
    (output_path : string) : M response :=
  ensure_dir E output_path ;;;
  try_except
    (extract_info E youtube_url output_path ;;;
     let subtitle_file_path := Fs.join output_path "file.en.vtt" in
     fs <-- get_fs ;;
     if Fs.isfile fs subtitle_file_path then
       subtitles <-- read_text E subtitle_file_path ;;
       clean_text <-- lift (clean_subtitles subtitles) ;;
       ret {| subtitles := clean_text |}
     else raise not_found)
    [ (is_DownloadError, fun _ => raise extraction_failed);
      (is_Exception, fun e => raise (internal_error E e)) ].

Definition workspace : string := "/tmp/audio".

Definition download (E : env) (url : string) : M response :=
  let output_path := workspace in
  try_finally
    (try_except
       (result <-- download_audio_and_subtitles E url output_path ;;
        ret result)
       [ (is_HTTPException, fun e => raise e) ])
    (cleanup_files E output_path).

Close Scope m_scope.

(** ** Sample runs *)

(** [str(e)]; for an [HTTPException] the status, ": " and the detail. *)
Definition describe (e : exn) : string :=
  match e with
  | DownloadError msg => msg
  | HTTPException status_code detail =>
      NilZero.string_of_int (Z.to_int status_code) ++ ": " ++ detail
  | IndexError => "list index out of range"
  | OSError msg => msg
  | UnicodeDecodeError msg => msg
  | KeyboardInterrupt => ""
  end.

Definition sample_env (run : string -> string -> M unit)
    (rm : option exn) : env :=
  {| extract_info := run;
     makedirs_error := None;
     read_error := None;
     rmtree_error := rm;
     exn_text := describe |}.

(** yt-dlp writes the caption file of scenario A. *)
Definition writes_captions (url output_path : string) : M unit :=
  fun fs =>
    (Return tt, (Fs.join output_path "file.en.vtt", Fs.File scenario_a) :: fs).

(** yt-dlp returns and leaves no caption file. *)
Definition writes_nothing (url output_path : string) : M unit := ret tt.

(** yt-dlp cannot reach the video. *)
Definition fails_to_download (url output_path : string) : M unit :=
  raise (DownloadError "ERROR: unable to download video data").

(** What [shutil.rmtree] raises when the directory cannot be removed. *)
Definition permission_denied : exn :=
  OSError "[Errno 13] Permission denied: '/tmp/audio'".

Definition sample_url : string := "https://www.youtube.com/watch?v=x".

(** ** Vocabulary of the properties *)

(** The list of lines once a first line with the given prefix is gone. *)
Definition without_first (prefix : string) (lines : list str) : list str :=
  match lines with
  | l :: ls => if startswith (lit prefix) l then ls else lines
  | [] => []
  end.

Definition header_stripped (lines : list str) : list str :=
  without_first "Language:"
    (without_first "Kind:" (without_first "WEBVTT" lines)).

(** The text of line 28, before the removals. *)
Definition body (s : str) : str :=
  join_lines (header_stripped (splitlines s)).

(** No line is popped: the first line has none of the three prefixes. *)
Definition headless (lines : list str) : bool :=
  match lines with
  | [] => true
  | l :: _ =>
      negb (startswith (lit "WEBVTT") l)
      && negb (startswith (lit "Kind:") l)
      && negb (startswith (lit "Language:") l)
  end.

(** None of the three removable patterns matches anywhere. *)
Definition pattern_free (s : str) : bool :=
  negb (Re.occurs Re.tag s)
  && negb (Re.occurs Re.timestamp s)
  && negb (Re.occurs Re.align s).

(** A run of two whitespace characters somewhere. *)
Definition space_run : Re.regex := [Re.One isspace; Re.One isspace].

Definition head_is (p : ascii -> bool) (s : str) : bool :=
  match s with
  | c :: _ => p c
  | [] => false
  end.

(** No whitespace at either end. *)
Definition trimmed (s : str) : bool :=
  negb (head_is isspace s) && negb (head_is isspace (rev s)).

Definition nonspace (c : ascii) : bool := negb (isspace c).

(** The maximal runs of characters that are not whitespace. *)
Fixpoint words (s : str) : list str :=
  match s with
  | [] => []
  | c :: t =>
      if isspace c then words t
      else if head_is nonspace t then
             match words t with
             | w :: ws => (c :: w) :: ws
             | [] => [[c]]
             end
           else [c] :: words t
  end.

Fixpoint unwords (ws : list str) : str :=
  match ws with
  | [] => []
  | [w] => w
  | w :: rest => w ++ SP :: unwords rest
  end.

(** [a] is [b] with some characters left out. *)
Inductive subseq : str -> str -> Prop :=
| subseq_nil : subseq [] []
| subseq_skip (c : ascii) (a b : str) : subseq a b -> subseq a (c :: b)
| subseq_keep (c : ascii) (a b : str) : subseq a b -> subseq (c :: a) (c :: b).

(** A line that one of the three header checks takes. *)
Definition header_line (l : str) : bool :=
  startswith (lit "WEBVTT") l
  || startswith (lit "Kind:") l
  || startswith (lit "Language:") l.

(** The characters that are not whitespace, in their order. *)
Definition letters (s : str) : str := filter nonspace s.

(** Not whitespace, or the plain space. *)
Definition text_or_space (c : ascii) : bool := nonspace c || Ascii.eqb c SP.

(** "hh:mm:ss.fff" written with the nine characters of [d]. *)
Definition clock_text (d : list ascii) : str :=
  match d with
  | [h1; h2; m1; m2; s1; s2; f1; f2; f3] =>
      [h1; h2; ":"%char; m1; m2; ":"%char; s1; s2; "."%char; f1; f2; f3]
  | _ => []
  end.

(** The pieces a caption text is made of: a tag, a cue-timing range, a
    positioning artifact with its value, or other text. *)
Inductive segment : Type :=
| Tag (v : str)
| Range (d1 d2 : list ascii)
| Position (n : str)
| Plain (p : str).

Definition render (g : segment) : str :=
  match g with
  | Tag v => "<"%char :: v ++ [">"%char]
  | Range d1 d2 => clock_text d1 ++ lit " --> " ++ clock_text d2
  | Position n => lit "align:start position:" ++ n ++ ["%"%char]
  | Plain p => p
  end.

(** A tag holds one or more characters other than ">"; a range is written
    with twice nine decimal digits; the value of a positioning artifact is
    one or more decimal digits; other text holds neither "<" nor ":". *)
Definition well_formed (g : segment) : bool :=
  match g with
  | Tag v => negb (Nat.eqb (List.length v) 0) && forallb (not_char ">") v
  | Range d1 d2 =>
      Nat.eqb (List.length d1) 9 && forallb isdigit d1
      && (Nat.eqb (List.length d2) 9 && forallb isdigit d2)
  | Position n => negb (Nat.eqb (List.length n) 0) && forallb isdigit n
  | Plain p => forallb (not_char "<") p && forallb (not_char ":") p
  end.

Fixpoint render_all (segs : list segment) : str :=
  match segs with
  | [] => []
  | g :: rest => render g ++ render_all rest
  end.

(** The other text of the pieces, in their order. *)
Fixpoint plain_text (segs : list segment) : str :=
  match segs with
  | [] => []
  | Plain p :: rest => p ++ plain_text rest
  | _ :: rest => plain_text rest
  end.

Definition is_tag (g : segment) : bool :=
  match g with Tag _ => true | _ => false end.

Definition is_range (g : segment) : bool :=
  match g with Range _ _ => true | _ => false end.

Definition is_position (g : segment) : bool :=
  match g with Position _ => true | _ => false end.

(** The pieces of scenario A after its header. *)
Definition scenario_a_pieces : list segment :=
  [ Plain [LF];
    Range (lit "000001000") (lit "000002000");
    Plain [SP];
    Position (lit "0");
    Plain ([LF] ++ lit "Hello ");
    Tag (lit "c");
    Plain (lit "world");
    Tag (lit "/c") ].

(** The pieces that the removal of tags leaves, and those that the removal
    of cue timing leaves after it. *)
Definition past_tags (g : segment) : bool :=
  well_formed g && negb (is_tag g).

Definition past_ranges (g : segment) : bool :=
  past_tags g && negb (is_range g).

(** No ":" in the text, or none before the given place. *)
Definition colon_far (k : nat) (s : str) : Prop :=
  drop_while (not_char ":") s = []
  \/ k <= List.length (take_while (not_char ":") s).

(** yt-dlp is interrupted from the keyboard. *)
Definition interrupted (url output_path : string) : M unit :=
  raise KeyboardInterrupt.

(** Not a line boundary. *)
Definition no_break (c : ascii) : bool := negb (is_linebreak c).

(** A word: not empty and free of whitespace. *)
Definition is_word (w : str) : bool :=
  match w with
  | [] => false
  | _ => forallb nonspace w
  end.

(** The text after the line boundary [c]: a LF that follows a CR belongs
    to the same boundary. *)
Definition after_break (c : ascii) (t : str) : str :=
  if Ascii.eqb c CR then
    match t with
    | d :: t' => if Ascii.eqb d LF then t' else t
    | [] => []
    end
  else t.

(** Every "<" is followed at once by ">" or by no ">" at all. *)
Fixpoint lt_closed (s : str) : bool :=
  match s with
  | [] => true
  | c :: t =>
      (negb (is_char "<" c) || head_is (is_char ">") t
       || negb (existsb (is_char ">") t))
      && lt_closed t
  end.

(** C3: cleaning the caption document of scenario A gives exactly
    "Hello world". *)
Theorem clean_scenario_a :
  clean_subtitles scenario_a = Return (lit "Hello world").
Proof. vm_compute. reflexivity. Qed.

(** ** The header *)

Section Header.

Lemma pop_if_startswith_cons (prefix : string) (l : str) (ls : list str) :
  pop_if_startswith prefix (l :: ls)
  = Return (without_first prefix (l :: ls)).
Proof.
  unfold pop_if_startswith; simpl.
  destruct (startswith (lit prefix) l); reflexivity.
Qed.

Lemma guarded_pop (prefix : string) (lines : list str) :
  (if nonempty lines then pop_if_startswith prefix lines else Return lines)
  = Return (without_first prefix lines).
Proof.
  destruct lines as [|l ls]; [reflexivity|].
  simpl nonempty. apply pop_if_startswith_cons.
Qed.

Lemma strip_header_returns (lines : list str) :
  strip_header lines = Return (header_stripped lines).
Proof.
  unfold strip_header, header_stripped.
  destruct lines as [|l ls]; [reflexivity|].
  simpl nonempty. rewrite pop_if_startswith_cons. simpl Py.bind.
  rewrite guarded_pop. simpl Py.bind.
  apply guarded_pop.
Qed.

Lemma clean_subtitles_returns (s : str) :
  clean_subtitles s = Return (scrub (body s)).
Proof.
  unfold clean_subtitles, body.
  rewrite strip_header_returns. reflexivity.
Qed.

Lemma headless_stripped (lines : list str) :
  headless lines = true -> header_stripped lines = lines.
Proof.
  destruct lines as [|l ls]; [reflexivity|].
  unfold headless, header_stripped. intros H.
  apply andb_prop in H. destruct H as [H HL].
  apply andb_prop in H. destruct H as [HW HK].
  apply negb_true_iff in HW, HK, HL.
  unfold without_first at 3. rewrite HW.
  unfold without_first at 2. rewrite HK.
  unfold without_first. rewrite HL. reflexivity.
Qed.

End Header.

(** ** The scan of a substitution *)

Section Scan.

Variable r : Re.regex.
Variable repl : str.

Lemma sub_from_skipn (k : nat) (s : str) :
  Re.sub_from r repl k s = Re.sub r repl (skipn k s).
Proof.
  revert k. induction s as [|c t IH]; intros k.
  - destruct k; reflexivity.
  - destruct k as [|k]; [reflexivity|].
    simpl Re.sub_from. rewrite IH. reflexivity.
Qed.

Lemma sub_cons_match (c : ascii) (t : str) (n : nat) :
  Re.match_len r (c :: t) = Some (S n) ->
  Re.sub r repl (c :: t) = repl ++ Re.sub r repl (skipn n t).
Proof.
  intros H. unfold Re.sub at 1. simpl Re.sub_from. rewrite H.
  rewrite sub_from_skipn. reflexivity.
Qed.

Lemma sub_cons_none (c : ascii) (t : str) :
  Re.match_len r (c :: t) = None ->
  Re.sub r repl (c :: t) = c :: Re.sub r repl t.
Proof.
  intros H. unfold Re.sub. simpl Re.sub_from. rewrite H. reflexivity.
Qed.

Lemma occurs_cons_false (c : ascii) (t : str) :
  Re.occurs r (c :: t) = false ->
  Re.match_len r (c :: t) = None /\ Re.occurs r t = false.
Proof.
  simpl Re.occurs. destruct (Re.match_len r (c :: t)); [discriminate|].
  intros H. split; [reflexivity|exact H].
Qed.

(** Where the pattern matches nowhere the text is left as it is. *)
Lemma sub_no_occurrence (s : str) :
  Re.occurs r s = false -> Re.sub r repl s = s.
Proof.
  induction s as [|c t IH]; intros H; [reflexivity|].
  apply occurs_cons_false in H. destruct H as [Hm Ho].
  rewrite (sub_cons_none _ _ Hm), (IH Ho). reflexivity.
Qed.

(** The scan writes only characters of the text and of the replacement. *)
Lemma sub_from_chars (k : nat) (s : str) (x : ascii) :
  In x (Re.sub_from r repl k s) -> In x repl \/ In x s.
Proof.
  revert k. induction s as [|c t IH]; intros k H; [contradiction|].
  simpl in H. destruct k as [|k].
  - destruct (Re.match_len r (c :: t)) as [[|n]|].
    + destruct H as [H|H]; [right; left; exact H|].
      destruct (IH _ H); [left|right; right]; assumption.
    + apply in_app_or in H. destruct H as [H|H]; [left; exact H|].
      destruct (IH _ H); [left|right; right]; assumption.
    + destruct H as [H|H]; [right; left; exact H|].
      destruct (IH _ H); [left|right; right]; assumption.
  - destruct (IH _ H); [left|right; right]; assumption.
Qed.

End Scan.

(** ** Whitespace *)

Section Whitespace.

Lemma skipn_take_while (p : ascii -> bool) (s : str) :
  skipn (List.length (take_while p s)) s = drop_while p s.
Proof.
  induction s as [|c t IH]; [reflexivity|].
  simpl. destruct (p c); [exact IH|reflexivity].
Qed.

Lemma take_drop_while (p : ascii -> bool) (s : str) :
  take_while p s ++ drop_while p s = s.
Proof.
  induction s as [|c t IH]; [reflexivity|].
  simpl. destruct (p c); [simpl; rewrite IH|]; reflexivity.
Qed.

Lemma drop_while_cons_true (p : ascii -> bool) (c : ascii) (t : str) :
  p c = true -> drop_while p (c :: t) = drop_while p t.
Proof. simpl. intros ->. reflexivity. Qed.

Lemma drop_while_head (p : ascii -> bool) (s : str) :
  head_is p (drop_while p s) = false.
Proof.
  induction s as [|c t IH]; [reflexivity|].
  simpl. destruct (p c) eqn:E; [exact IH|simpl; exact E].
Qed.

Lemma drop_while_id (p : ascii -> bool) (s : str) :
  head_is p s = false -> drop_while p s = s.
Proof.
  destruct s as [|c t]; [reflexivity|].
  simpl. intros ->. reflexivity.
Qed.

Lemma drop_while_all (p : ascii -> bool) (s : str) :
  forallb p s = true -> drop_while p s = [].
Proof.
  induction s as [|c t IH]; [reflexivity|].
  simpl. destruct (p c); [exact IH|discriminate].
Qed.

Lemma drop_while_app (p : ascii -> bool) (a b : str) :
  drop_while p (a ++ b)
  = if forallb p a then drop_while p b else drop_while p a ++ b.
Proof.
  induction a as [|c t IH]; [reflexivity|].
  simpl. destruct (p c); [exact IH|reflexivity].
Qed.

Lemma forallb_rev (p : ascii -> bool) (s : str) :
  forallb p (rev s) = forallb p s.
Proof.
  induction s as [|c t IH]; [reflexivity|].
  simpl. rewrite forallb_app, IH. simpl.
  rewrite andb_true_r. apply andb_comm.
Qed.

Lemma rstrip_cons (c : ascii) (t : str) :
  rstrip (c :: t)
  = if forallb isspace (c :: t) then [] else c :: rstrip t.
Proof.
  unfold rstrip. simpl rev. rewrite drop_while_app, forallb_rev.
  simpl forallb. destruct (forallb isspace t) eqn:Ht.
  - rewrite andb_true_r. simpl. destruct (isspace c); [reflexivity|].
    rewrite (drop_while_all isspace (rev t)); [reflexivity|].
    rewrite forallb_rev. exact Ht.
  - rewrite andb_false_r. rewrite rev_app_distr. reflexivity.
Qed.

Lemma collapse_nil : collapse [] = [].
Proof. reflexivity. Qed.

Lemma collapse_space (c : ascii) (t : str) :
  isspace c = true ->
  collapse (c :: t) = SP :: collapse (drop_while isspace t).
Proof.
  intros Hc. unfold collapse.
  rewrite (sub_cons_match Re.spaces [SP] c t
             (List.length (take_while isspace t) + 0)).
  - rewrite Nat.add_0_r, skipn_take_while. reflexivity.
  - simpl. rewrite Hc. reflexivity.
Qed.

Lemma collapse_other (c : ascii) (t : str) :
  isspace c = false -> collapse (c :: t) = c :: collapse t.
Proof.
  intros Hc. unfold collapse. apply sub_cons_none.
  simpl. rewrite Hc. reflexivity.
Qed.

(** A whitespace character before more whitespace adds nothing. *)
Lemma collapse_space_cons (c : ascii) (t : str) :
  isspace c = true ->
  collapse (c :: t)
  = if head_is isspace t then collapse t else SP :: collapse t.
Proof.
  intros Hc. rewrite (collapse_space _ _ Hc).
  destruct t as [|d t']; [reflexivity|].
  simpl head_is. destruct (isspace d) eqn:Hd.
  - rewrite (collapse_space _ _ Hd). simpl. rewrite Hd. reflexivity.
  - simpl. rewrite Hd. reflexivity.
Qed.

Lemma collapse_head (s : str) :
  head_is isspace s = false -> head_is isspace (collapse s) = false.
Proof.
  destruct s as [|c t]; [reflexivity|].
  simpl. intros Hc. rewrite (collapse_other _ _ Hc). simpl. exact Hc.
Qed.

Lemma lstrip_collapse (s : str) :
  lstrip (collapse s) = collapse (lstrip s).
Proof.
  unfold lstrip. destruct s as [|c t]; [reflexivity|].
  destruct (isspace c) eqn:Hc.
  - rewrite (collapse_space _ _ Hc).
    rewrite !drop_while_cons_true by (exact Hc || reflexivity).
    apply drop_while_id, collapse_head, drop_while_head.
  - rewrite (drop_while_id isspace (c :: t)) by (simpl; exact Hc).
    apply drop_while_id, collapse_head. simpl. exact Hc.
Qed.

End Whitespace.

(** ** Words *)

Section Words.

Lemma head_nonspace_space (s : str) :
  head_is nonspace s = true -> head_is isspace s = false.
Proof.
  destruct s as [|c t]; [reflexivity|].
  unfold nonspace. simpl. apply negb_true_iff.
Qed.

Lemma words_space (c : ascii) (t : str) :
  isspace c = true -> words (c :: t) = words t.
Proof. simpl. intros ->. reflexivity. Qed.

Lemma words_other (c : ascii) (t : str) :
  isspace c = false ->
  words (c :: t)
  = if head_is nonspace t then
      match words t with
      | w :: ws => (c :: w) :: ws
      | [] => [[c]]
      end
    else [c] :: words t.
Proof. simpl. intros ->. reflexivity. Qed.

Lemma words_head (s : str) :
  head_is nonspace s = true -> exists w ws, words s = w :: ws.
Proof.
  destruct s as [|c t]; [discriminate|].
  unfold nonspace at 1. simpl head_is. intros H.
  apply negb_true_iff in H. rewrite (words_other _ _ H).
  destruct (head_is nonspace t).
  - destruct (words t) as [|w ws]; eauto.
  - eauto.
Qed.

Lemma words_drop_while (s : str) :
  words (drop_while isspace s) = words s.
Proof.
  induction s as [|c t IH]; [reflexivity|].
  destruct (isspace c) eqn:Hc.
  - rewrite (drop_while_cons_true isspace c t Hc), IH.
    symmetry. apply words_space. exact Hc.
  - rewrite drop_while_id; [reflexivity|]. simpl. exact Hc.
Qed.

Lemma unwords_cons (c : ascii) (w : str) (ws : list str) :
  unwords ((c :: w) :: ws) = c :: unwords (w :: ws).
Proof. destruct ws; reflexivity. Qed.

Lemma rstrip_collapse (s : str) :
  rstrip (collapse s)
  = if head_is isspace s then
      match words s with
      | [] => []
      | ws => SP :: unwords ws
      end
    else unwords (words s).
Proof.
  induction s as [|c t IH]; [reflexivity|].
  simpl head_is. destruct (isspace c) eqn:Hc.
  - rewrite (words_space _ _ Hc), (collapse_space_cons _ _ Hc).
    destruct (head_is isspace t) eqn:Ht; [exact IH|].
    rewrite rstrip_cons, IH.
    destruct t as [|d t']; [reflexivity|].
    simpl in Ht. rewrite (collapse_other _ _ Ht).
    replace (forallb isspace (SP :: d :: collapse t')) with false
      by (simpl forallb; rewrite Ht; reflexivity).
    destruct (words_head (d :: t')) as (w & ws & Hw).
    { unfold nonspace; simpl. rewrite Ht. reflexivity. }
    rewrite Hw. reflexivity.
  - rewrite (collapse_other _ _ Hc), rstrip_cons, (words_other _ _ Hc), IH.
    cbn [forallb]. rewrite Hc. cbn [andb].
    destruct (head_is nonspace t) eqn:Hn.
    + rewrite (head_nonspace_space _ Hn).
      destruct (words_head _ Hn) as (w & ws & Hw).
      rewrite Hw, unwords_cons. reflexivity.
    + destruct t as [|d t']; [reflexivity|].
      unfold nonspace in Hn. simpl in Hn.
      apply negb_false_iff in Hn. simpl head_is. rewrite Hn.
      destruct (words (d :: t')); reflexivity.
Qed.

(** Collapsing then stripping keeps the words, one space apart. *)
Lemma strip_collapse_words (s : str) :
  strip (collapse s) = unwords (words s).
Proof.
  unfold strip. rewrite lstrip_collapse, rstrip_collapse.
  unfold lstrip. rewrite drop_while_head, words_drop_while. reflexivity.
Qed.

End Words.

(** ** Lines *)

Section Lines.

Lemma code_in_incl (c : ascii) (l1 l2 : list nat) :
  incl l1 l2 -> code_in c l1 = true -> code_in c l2 = true.
Proof.
  unfold code_in. intros Hi H.
  apply existsb_exists in H. destruct H as (n & Hn & He).
  apply existsb_exists. exists n. split; [apply Hi; exact Hn|exact He].
Qed.

(** Every line boundary is a whitespace character. *)
Lemma linebreak_isspace (c : ascii) :
  is_linebreak c = true -> isspace c = true.
Proof.
  apply code_in_incl. intros n Hn. simpl in Hn. simpl.
  repeat (destruct Hn as [Hn|Hn]; [subst n; tauto|]). contradiction.
Qed.

Lemma splitlines_break (c : ascii) (t : str) :
  is_linebreak c = true ->
  splitlines (c :: t) = [] :: splitlines (after_break c t).
Proof.
  intros Hc. simpl. rewrite Hc. unfold after_break.
  destruct (Ascii.eqb c CR); [|reflexivity].
  destruct t as [|d t']; [reflexivity|].
  destruct (Ascii.eqb d LF); reflexivity.
Qed.

Lemma splitlines_other (c : ascii) (t : str) :
  is_linebreak c = false ->
  splitlines (c :: t)
  = match splitlines t with
    | [] => [[c]]
    | l :: ls => (c :: l) :: ls
    end.
Proof. intros Hc. simpl. rewrite Hc. reflexivity. Qed.

Lemma splitlines_nil (s : str) : splitlines s = [] -> s = [].
Proof.
  destruct s as [|c t]; [reflexivity|].
  destruct (is_linebreak c) eqn:Hc.
  - rewrite (splitlines_break _ _ Hc). discriminate.
  - rewrite (splitlines_other _ _ Hc).
    destruct (splitlines t); discriminate.
Qed.

Lemma join_split_other (c : ascii) (t : str) :
  is_linebreak c = false ->
  join_lines (splitlines (c :: t)) = c :: join_lines (splitlines t).
Proof.
  intros Hc. rewrite (splitlines_other _ _ Hc).
  destruct (splitlines t) as [|l ls]; [reflexivity|].
  destruct ls; reflexivity.
Qed.

Lemma join_split_break (c : ascii) (t : str) :
  is_linebreak c = true ->
  join_lines (splitlines (c :: t))
  = match after_break c t with
    | [] => []
    | _ => LF :: join_lines (splitlines (after_break c t))
    end.
Proof.
  intros Hc. rewrite (splitlines_break _ _ Hc).
  destruct (after_break c t) as [|d u] eqn:E; [reflexivity|].
  destruct (splitlines (d :: u)) as [|l ls] eqn:Es.
  - apply splitlines_nil in Es. discriminate.
  - reflexivity.
Qed.

Lemma after_break_length (c : ascii) (t : str) :
  List.length (after_break c t) <= List.length t.
Proof.
  unfold after_break. destruct (Ascii.eqb c CR); [|lia].
  destruct t as [|d t']; [simpl; lia|].
  destruct (Ascii.eqb d LF); simpl; lia.
Qed.

Lemma words_after_break (c : ascii) (t : str) :
  words (after_break c t) = words t.
Proof.
  unfold after_break. destruct (Ascii.eqb c CR); [|reflexivity].
  destruct t as [|d t']; [reflexivity|].
  destruct (Ascii.eqb d LF) eqn:Hd; [|reflexivity].
  apply Ascii.eqb_eq in Hd. subst d. reflexivity.
Qed.

Lemma join_split_head (t : str) :
  head_is nonspace (join_lines (splitlines t)) = head_is nonspace t.
Proof.
  destruct t as [|d t2]; [reflexivity|].
  destruct (is_linebreak d) eqn:Hd.
  - rewrite (join_split_break _ _ Hd).
    unfold nonspace at 2. simpl head_is at 2.
    rewrite (linebreak_isspace _ Hd).
    destruct (after_break d t2); reflexivity.
  - rewrite (join_split_other _ _ Hd). reflexivity.
Qed.

Lemma words_join_split_bounded (n : nat) :
  forall s, List.length s <= n ->
            words (join_lines (splitlines s)) = words s.
Proof.
  induction n as [|n IH]; intros s Hs.
  - destruct s; [reflexivity|simpl in Hs; lia].
  - destruct s as [|c t]; [reflexivity|]. simpl in Hs.
    destruct (is_linebreak c) eqn:Hc.
    + rewrite (join_split_break _ _ Hc).
      rewrite (words_space c t (linebreak_isspace _ Hc)).
      rewrite <- (words_after_break c t).
      pose proof (after_break_length c t) as Hl.
      destruct (after_break c t) as [|d u] eqn:E; [reflexivity|].
      rewrite words_space by reflexivity.
      apply IH. lia.
    + rewrite (join_split_other _ _ Hc).
      destruct (isspace c) eqn:Hsp.
      * rewrite !(words_space c _ Hsp). apply IH. lia.
      * rewrite !(words_other c _ Hsp), join_split_head.
        rewrite IH by lia. reflexivity.
Qed.

(** Splitting into lines and joining them again keeps the words. *)
Lemma words_join_split (s : str) :
  words (join_lines (splitlines s)) = words s.
Proof. apply (words_join_split_bounded (List.length s)). lia. Qed.

End Lines.

(** ** Text without removable patterns *)

Lemma pattern_free_parts (s : str) :
  pattern_free s = true ->
  Re.occurs Re.tag s = false /\ Re.occurs Re.timestamp s = false
  /\ Re.occurs Re.align s = false.
Proof.
  unfold pattern_free. intros H.
  apply andb_prop in H. destruct H as [H Ha].
  apply andb_prop in H. destruct H as [Ht Hs].
  apply negb_true_iff in Ht, Hs, Ha. auto.
Qed.

Lemma scrub_pattern_free (s : str) :
  pattern_free s = true -> scrub s = strip (collapse s).
Proof.
  intros H. apply pattern_free_parts in H. destruct H as (Ht & Hs & Ha).
  unfold scrub, remove_align, remove_timestamps, remove_tags.
  rewrite (sub_no_occurrence Re.tag [] s Ht).
  rewrite (sub_no_occurrence Re.timestamp [] s Hs).
  rewrite (sub_no_occurrence Re.align [] s Ha).
  reflexivity.
Qed.

(** C9: cleaning returns for every input; when the first line has none of
    the three header prefixes and the text holds none of the removable
    patterns, what it returns is the input with each run of whitespace
    collapsed to one space and both ends stripped. *)
Theorem clean_never_fails (s : str) :
  (exists out, clean_subtitles s = Return out)
  /\ (headless (splitlines s) = true ->
      pattern_free (body s) = true ->
      clean_subtitles s = Return (strip (collapse s))).
Proof.
  split.
  - exists (scrub (body s)). apply clean_subtitles_returns.
  - intros Hh Hp. rewrite clean_subtitles_returns.
    rewrite (scrub_pattern_free _ Hp). unfold body.
    rewrite (headless_stripped _ Hh).
    rewrite !strip_collapse_words, words_join_split. reflexivity.
Qed.

Lemma clean_never_fails_witness :
  headless (splitlines plain_sample) = true
  /\ pattern_free (body plain_sample) = true
  /\ clean_subtitles plain_sample = Return (lit "Hello big world").
Proof.
  split; [reflexivity|]. split; [reflexivity|].
  exact (proj2 (clean_never_fails plain_sample) eq_refl eq_refl).
Defined.

(** ** Angle brackets *)

Arguments is_char : simpl never.
Arguments not_char : simpl never.
Arguments isspace : simpl never.
Arguments isdigit : simpl never.

Section Brackets.

Lemma match_len_pos (a : Re.atom) (r : Re.regex) (s : str) :
  Re.match_len (a :: r) s <> Some 0.
Proof.
  destruct a as [p|p]; simpl; destruct s as [|c t]; try discriminate;
    destruct (p c); try discriminate.
  - destruct (Re.match_len r t); discriminate.
  - destruct (Re.match_len r (drop_while p t)); discriminate.
Qed.

Lemma not_char_is_char (a c : ascii) : not_char a c = negb (is_char a c).
Proof. reflexivity. Qed.

Lemma drop_while_not_char (a : ascii) (s : str) :
  drop_while (not_char a) s = []
  \/ head_is (is_char a) (drop_while (not_char a) s) = true.
Proof.
  induction s as [|c t IH]; [left; reflexivity|].
  simpl. rewrite not_char_is_char.
  destruct (is_char a c) eqn:E; simpl.
  - right. exact E.
  - exact IH.
Qed.

Lemma drop_while_absent (a : ascii) (s : str) :
  existsb (is_char a) s = false <-> drop_while (not_char a) s = [].
Proof.
  induction s as [|c t IH]; [split; reflexivity|].
  simpl. rewrite not_char_is_char.
  destruct (is_char a c); simpl; [split; discriminate|exact IH].
Qed.

(** Where a "<" opens no tag, a ">" follows at once or never. *)
Lemma tag_match_none (c : ascii) (t : str) :
  is_char "<" c = true ->
  Re.match_len Re.tag (c :: t) = None ->
  head_is (is_char ">") t = true \/ existsb (is_char ">") t = false.
Proof.
  intros Hc. unfold Re.tag. simpl. rewrite Hc.
  destruct t as [|d t']; [right; reflexivity|].
  simpl. rewrite not_char_is_char.
  destruct (is_char ">" d) eqn:Hd; simpl; [left; reflexivity|].
  intros H. right.
  destruct (drop_while_not_char ">" t') as [E|E].
  - apply drop_while_absent. exact E.
  - destruct (drop_while (not_char ">") t') as [|e u]; [discriminate|].
    simpl in E. rewrite E in H. discriminate.
Qed.

Lemma tag_match_closed (c : ascii) (t : str) :
  negb (is_char "<" c) || head_is (is_char ">") t
  || negb (existsb (is_char ">") t) = true ->
  Re.match_len Re.tag (c :: t) = None.
Proof.
  intros H. unfold Re.tag. simpl.
  destruct (is_char "<" c) eqn:Hc; [|reflexivity].
  simpl in H.
  destruct t as [|d t']; [reflexivity|].
  simpl in H. rewrite not_char_is_char.
  destruct (is_char ">" d) eqn:Hd; [reflexivity|].
  simpl in H. apply negb_true_iff in H.
  apply drop_while_absent in H. simpl. rewrite H. reflexivity.
Qed.

(** A closed text holds no tag. *)
Lemma lt_closed_no_tag (s : str) :
  lt_closed s = true -> Re.occurs Re.tag s = false.
Proof.
  induction s as [|c t IH]; [reflexivity|].
  intros H. simpl lt_closed in H.
  apply andb_prop in H. destruct H as [Hc Ht].
  change (Re.occurs Re.tag (c :: t))
    with (match Re.match_len Re.tag (c :: t) with
          | Some _ => true
          | None => Re.occurs Re.tag t
          end).
  rewrite (tag_match_closed _ _ Hc). exact (IH Ht).
Qed.

End Brackets.

(** ** What a later substitution keeps of the brackets *)

Section Keeps.

Variable r : Re.regex.
Variable repl : str.

Hypothesis no_match_at_gt :
  forall c t, is_char ">" c = true -> Re.match_len r (c :: t) = None.

Hypothesis plain_repl :
  forall x, In x repl -> is_char "<" x = false /\ is_char ">" x = false.

Lemma absent_iff (a : ascii) (s : str) :
  existsb (is_char a) s = false <-> forall x, In x s -> is_char a x = false.
Proof.
  induction s as [|c t IH]; simpl.
  - split; [intros _ x []|reflexivity].
  - rewrite orb_false_iff, IH. split.
    + intros [Hc Ht] x [<-|Hx]; auto.
    + intros H. split; [apply H; left; reflexivity|].
      intros x Hx. apply H. right. exact Hx.
Qed.

Lemma sub_absent (k : nat) (s : str) :
  existsb (is_char ">") s = false ->
  existsb (is_char ">") (Re.sub_from r repl k s) = false.
Proof.
  rewrite !absent_iff. intros H x Hx.
  apply sub_from_chars in Hx. destruct Hx as [Hx|Hx].
  - apply plain_repl. exact Hx.
  - apply H. exact Hx.
Qed.

Lemma sub_head_gt (s : str) :
  head_is (is_char ">") s = true ->
  head_is (is_char ">") (Re.sub_from r repl 0 s) = true.
Proof.
  destruct s as [|c t]; [discriminate|].
  simpl head_is. intros Hc. simpl Re.sub_from.
  rewrite (no_match_at_gt c t Hc). simpl. exact Hc.
Qed.

Lemma lt_closed_repl (s : str) :
  lt_closed s = true -> lt_closed (repl ++ s) = true.
Proof.
  intros Hs. induction repl as [|x l IH]; [exact Hs|].
  simpl. rewrite IH.
  - destruct (plain_repl x (or_introl eq_refl)) as [-> _]. reflexivity.
  - intros y Hy. apply plain_repl. right. exact Hy.
Qed.

Lemma lt_closed_cons (c : ascii) (t : str) :
  lt_closed (c :: t) = true -> lt_closed t = true.
Proof. simpl. intros H. apply andb_prop in H. apply H. Qed.

(** The scan keeps a closed text closed. *)
Lemma sub_lt_closed (s : str) :
  forall k, lt_closed s = true ->
            lt_closed (Re.sub_from r repl k s) = true.
Proof.
  induction s as [|c t IH]; intros k H; [reflexivity|].
  pose proof (lt_closed_cons _ _ H) as Ht.
  simpl Re.sub_from. destruct k as [|k]; [|apply IH; exact Ht].
  destruct (Re.match_len r (c :: t)) as [[|n]|];
    [|apply lt_closed_repl, IH, Ht|].
  all: simpl in H |- *; apply andb_prop in H; destruct H as [Hc _];
    rewrite (IH 0 Ht), andb_true_r;
    (destruct (is_char "<" c); [|reflexivity]); simpl in Hc |- *;
    apply orb_prop in Hc; destruct Hc as [Hc|Hc];
    [ rewrite (sub_head_gt t Hc); reflexivity
    | apply negb_true_iff in Hc; rewrite (sub_absent 0 t Hc);
      apply orb_true_r ].
Qed.

End Keeps.

Section NoTagLeft.

Lemma is_char_eq (a c : ascii) : is_char a c = true -> c = a.
Proof. unfold is_char. intros H. apply Ascii.eqb_eq in H. auto. Qed.

Lemma tag_not_at_gt (c : ascii) (t : str) :
  is_char ">" c = true -> Re.match_len Re.tag (c :: t) = None.
Proof. intros H. apply is_char_eq in H. subst c. reflexivity. Qed.

Lemma timestamp_not_at_gt (c : ascii) (t : str) :
  is_char ">" c = true -> Re.match_len Re.timestamp (c :: t) = None.
Proof. intros H. apply is_char_eq in H. subst c. reflexivity. Qed.

Lemma align_not_at_gt (c : ascii) (t : str) :
  is_char ">" c = true -> Re.match_len Re.align (c :: t) = None.
Proof. intros H. apply is_char_eq in H. subst c. reflexivity. Qed.

Lemma spaces_not_at_gt (c : ascii) (t : str) :
  is_char ">" c = true -> Re.match_len Re.spaces (c :: t) = None.
Proof. intros H. apply is_char_eq in H. subst c. reflexivity. Qed.

Lemma plain_nil (x : ascii) :
  In x [] -> is_char "<" x = false /\ is_char ">" x = false.
Proof. intros []. Qed.

Lemma plain_space (x : ascii) :
  In x [SP] -> is_char "<" x = false /\ is_char ">" x = false.
Proof. intros [<-|[]]. split; reflexivity. Qed.

Lemma sub_from_cons (r : Re.regex) (repl : str) (c : ascii) (t : str) :
  Re.sub_from r repl 0 (c :: t)
  = match Re.match_len r (c :: t) with
    | Some (S n) => repl ++ Re.sub_from r repl n t
    | _ => c :: Re.sub_from r repl 0 t
    end.
Proof. reflexivity. Qed.

(** The text is closed once the tags are removed. *)
Lemma remove_tags_closed (s : str) :
  forall k, lt_closed (Re.sub_from Re.tag [] k s) = true.
Proof.
  induction s as [|c t IH]; intros k; [reflexivity|].
  destruct k as [|k]; [|apply IH].
  rewrite sub_from_cons.
  destruct (Re.match_len Re.tag (c :: t)) as [[|n]|] eqn:E.
  - exact (False_ind _ (match_len_pos _ _ _ E)).
  - apply IH.
  - simpl. rewrite IH, andb_true_r.
    destruct (is_char "<" c) eqn:Hc; [|reflexivity]. simpl.
    destruct (tag_match_none c t Hc E) as [H|H].
    + rewrite (sub_head_gt Re.tag [] tag_not_at_gt t H). reflexivity.
    + rewrite (sub_absent Re.tag [] plain_nil 0 t H). apply orb_true_r.
Qed.

Lemma lt_closed_drop_while (p : ascii -> bool) (s : str) :
  lt_closed s = true -> lt_closed (drop_while p s) = true.
Proof.
  induction s as [|c t IH]; intros H; [reflexivity|].
  simpl drop_while. destruct (p c); [|exact H].
  apply IH. exact (lt_closed_cons _ _ H).
Qed.

Lemma lt_closed_prefix (a b : str) :
  lt_closed (a ++ b) = true -> lt_closed a = true.
Proof.
  induction a as [|c a' IH]; [reflexivity|].
  simpl. intros H. apply andb_prop in H. destruct H as [Hc Ht].
  rewrite (IH Ht), andb_true_r.
  destruct (is_char "<" c); [|reflexivity]. simpl in Hc |- *.
  apply orb_prop in Hc. destruct Hc as [Hc|Hc].
  - destruct a' as [|d a'']; [reflexivity|].
    simpl in Hc |- *. rewrite Hc. reflexivity.
  - rewrite existsb_app in Hc. apply negb_true_iff in Hc.
    apply orb_false_iff in Hc. destruct Hc as [-> _]. apply orb_true_r.
Qed.

Lemma rstrip_prefix (s : str) :
  s = rstrip s ++ rev (take_while isspace (rev s)).
Proof.
  unfold rstrip. rewrite <- rev_app_distr, take_drop_while.
  symmetry. apply rev_involutive.
Qed.

Lemma lt_closed_strip (s : str) :
  lt_closed s = true -> lt_closed (strip s) = true.
Proof.
  intros H. unfold strip.
  apply (lt_closed_prefix _ (rev (take_while isspace (rev (lstrip s))))).
  rewrite <- rstrip_prefix. apply lt_closed_drop_while. exact H.
Qed.

(** No tag is left in what [clean_subtitles] returns. *)
Lemma scrub_no_tag (s : str) : Re.occurs Re.tag (scrub s) = false.
Proof.
  apply lt_closed_no_tag. unfold scrub. apply lt_closed_strip.
  apply (sub_lt_closed Re.spaces [SP] spaces_not_at_gt plain_space).
  apply (sub_lt_closed Re.align [] align_not_at_gt plain_nil).
  apply (sub_lt_closed Re.timestamp [] timestamp_not_at_gt plain_nil).
  apply remove_tags_closed.
Qed.

End NoTagLeft.

(** ** Whitespace of the result *)

Section Result.

Lemma space_run_cons (c : ascii) (t : str) :
  Re.occurs space_run (c :: t)
  = (isspace c && head_is isspace t) || Re.occurs space_run t.
Proof.
  unfold space_run. simpl. destruct (isspace c); [|reflexivity].
  destruct t as [|d u]; [reflexivity|].
  simpl. destruct (isspace d); reflexivity.
Qed.

Lemma nonspace_no_run (w u : str) :
  forallb nonspace w = true ->
  Re.occurs space_run (w ++ u) = Re.occurs space_run u.
Proof.
  induction w as [|c w' IH]; [reflexivity|].
  simpl forallb. intros H. apply andb_prop in H. destruct H as [Hc Hw].
  apply negb_true_iff in Hc.
  change ((c :: w') ++ u) with (c :: (w' ++ u)).
  rewrite space_run_cons, Hc. exact (IH Hw).
Qed.

Lemma is_word_nonspace (w : str) :
  is_word w = true -> forallb nonspace w = true.
Proof. destruct w; [discriminate|]. intros H. exact H. Qed.

Lemma is_word_head (w u : str) :
  is_word w = true -> head_is isspace (w ++ u) = false.
Proof.
  destruct w as [|c w']; [discriminate|].
  simpl. intros H. apply andb_prop in H. destruct H as [Hc _].
  apply negb_true_iff in Hc. exact Hc.
Qed.

Lemma unwords_shape (ws : list str) :
  Forall (fun w => is_word w = true) ws ->
  Re.occurs space_run (unwords ws) = false
  /\ head_is isspace (unwords ws) = false.
Proof.
  induction 1 as [|w rest Hw Hrest IH]; [split; reflexivity|].
  destruct rest as [|w2 rest'].
  - split.
    + cbn [unwords]. rewrite <- (app_nil_r w).
      rewrite (nonspace_no_run w [] (is_word_nonspace _ Hw)). reflexivity.
    + cbn [unwords]. rewrite <- (app_nil_r w). apply is_word_head, Hw.
  - destruct IH as [IHr IHh]. split.
    + change (unwords (w :: w2 :: rest'))
        with (w ++ SP :: unwords (w2 :: rest')).
      rewrite (nonspace_no_run w _ (is_word_nonspace _ Hw)).
      rewrite space_run_cons, IHh, IHr. reflexivity.
    + change (unwords (w :: w2 :: rest'))
        with (w ++ SP :: unwords (w2 :: rest')).
      apply is_word_head, Hw.
Qed.

Lemma words_are_words (s : str) :
  Forall (fun w => is_word w = true) (words s).
Proof.
  induction s as [|c t IH]; [constructor|].
  destruct (isspace c) eqn:Hc.
  - rewrite (words_space _ _ Hc). exact IH.
  - rewrite (words_other _ _ Hc).
    assert (Hn : nonspace c = true) by (unfold nonspace; rewrite Hc; reflexivity).
    destruct (head_is nonspace t).
    + destruct (words t) as [|w ws].
      * constructor; [simpl; rewrite Hn; reflexivity|constructor].
      * inversion IH as [|? ? Hw Hws]; subst. constructor; [|exact Hws].
        simpl. rewrite Hn. simpl. apply is_word_nonspace, Hw.
    + constructor; [simpl; rewrite Hn; reflexivity|exact IH].
Qed.

(** Nothing but single spaces between the words that are left. *)
Lemma scrub_no_space_run (s : str) :
  Re.occurs space_run (scrub s) = false.
Proof.
  unfold scrub. rewrite strip_collapse_words.
  apply unwords_shape, words_are_words.
Qed.

Lemma rstrip_head (s : str) :
  head_is isspace s = false -> head_is isspace (rstrip s) = false.
Proof.
  destruct s as [|c t]; [reflexivity|].
  intros H. rewrite rstrip_cons.
  destruct (forallb isspace (c :: t)); [reflexivity|exact H].
Qed.

Lemma strip_trimmed (s : str) : trimmed (strip s) = true.
Proof.
  unfold trimmed, strip. rewrite rstrip_head.
  - unfold rstrip. rewrite rev_involutive, drop_while_head. reflexivity.
  - apply drop_while_head.
Qed.

End Result.

(** ** Cleaning twice *)

Section Twice.

Lemma words_app_word (w u : str) :
  is_word w = true -> words (w ++ SP :: u) = w :: words u.
Proof.
  induction w as [|c w' IH]; [discriminate|].
  intros H. pose proof (is_word_nonspace _ H) as Hf.
  simpl forallb in Hf. apply andb_prop in Hf. destruct Hf as [Hc Hw].
  apply negb_true_iff in Hc.
  change ((c :: w') ++ SP :: u) with (c :: (w' ++ SP :: u)).
  rewrite (words_other _ _ Hc).
  destruct w' as [|d w''].
  - simpl app. simpl head_is. rewrite words_space by reflexivity.
    reflexivity.
  - simpl forallb in Hw. apply andb_prop in Hw. destruct Hw as [Hd Hw].
    simpl app at 1. simpl head_is. rewrite Hd.
    change (d :: w'' ++ SP :: u) with ((d :: w'') ++ SP :: u).
    rewrite IH; [reflexivity|]. simpl. rewrite Hd, Hw. reflexivity.
Qed.

Lemma words_word (w : str) : is_word w = true -> words w = [w].
Proof.
  induction w as [|c w' IH]; [discriminate|].
  intros H. pose proof (is_word_nonspace _ H) as Hf.
  simpl forallb in Hf. apply andb_prop in Hf. destruct Hf as [Hc Hw].
  apply negb_true_iff in Hc. rewrite (words_other _ _ Hc).
  destruct w' as [|d w'']; [reflexivity|].
  simpl forallb in Hw. apply andb_prop in Hw. destruct Hw as [Hd Hw].
  simpl head_is. rewrite Hd.
  rewrite IH; [reflexivity|]. simpl. rewrite Hd, Hw. reflexivity.
Qed.

Lemma words_unwords (ws : list str) :
  Forall (fun w => is_word w = true) ws -> words (unwords ws) = ws.
Proof.
  induction 1 as [|w rest Hw Hrest IH]; [reflexivity|].
  destruct rest as [|w2 rest']; [apply words_word, Hw|].
  change (unwords (w :: w2 :: rest'))
    with (w ++ SP :: unwords (w2 :: rest')).
  rewrite (words_app_word _ _ Hw), IH. reflexivity.
Qed.

Lemma nonspace_no_break (w : str) :
  forallb nonspace w = true -> forallb no_break w = true.
Proof.
  induction w as [|c w' IH]; [reflexivity|].
  simpl. intros H. apply andb_prop in H. destruct H as [Hc Hw].
  rewrite (IH Hw), andb_true_r. unfold no_break.
  destruct (is_linebreak c) eqn:E; [|reflexivity].
  apply linebreak_isspace in E. unfold nonspace in Hc.
  rewrite E in Hc. discriminate.
Qed.

Lemma unwords_no_break (ws : list str) :
  Forall (fun w => is_word w = true) ws ->
  forallb no_break (unwords ws) = true.
Proof.
  induction 1 as [|w rest Hw Hrest IH]; [reflexivity|].
  pose proof (nonspace_no_break _ (is_word_nonspace _ Hw)) as Hb.
  destruct rest as [|w2 rest']; [exact Hb|].
  change (unwords (w :: w2 :: rest'))
    with (w ++ SP :: unwords (w2 :: rest')).
  rewrite forallb_app, Hb. simpl. exact IH.
Qed.

(** A text without line boundaries is one line, or none when empty. *)
Lemma splitlines_one_line (s : str) :
  forallb no_break s = true ->
  splitlines s = match s with [] => [] | _ => [s] end.
Proof.
  induction s as [|c t IH]; [reflexivity|].
  simpl forallb. intros H. apply andb_prop in H. destruct H as [Hc Ht].
  apply negb_true_iff in Hc.
  rewrite (splitlines_other _ _ Hc), (IH Ht).
  destruct t; reflexivity.
Qed.

Lemma without_first_one (prefix : string) (l : str) :
  without_first prefix [l] = [l] \/ without_first prefix [l] = [].
Proof.
  unfold without_first. destruct (startswith (lit prefix) l); auto.
Qed.

Lemma body_one_line (s : str) :
  forallb no_break s = true -> body s = s \/ body s = [].
Proof.
  intros H. unfold body. rewrite (splitlines_one_line _ H).
  destruct s as [|c t]; [left; reflexivity|].
  unfold header_stripped.
  destruct (without_first_one "WEBVTT" (c :: t)) as [-> | ->];
    [|right; reflexivity].
  destruct (without_first_one "Kind:" (c :: t)) as [-> | ->];
    [|right; reflexivity].
  destruct (without_first_one "Language:" (c :: t)) as [-> | ->];
    [left|right]; reflexivity.
Qed.

End Twice.

Lemma body_of_line (x : str) :
  forallb no_break x = true ->
  body x = if header_line x then [] else x.
Proof.
  intros H. unfold body. rewrite (splitlines_one_line _ H).
  destruct x as [|c t]; [reflexivity|].
  unfold header_stripped, header_line, without_first.
  destruct (startswith (lit "WEBVTT") (c :: t)); [reflexivity|].
  destruct (startswith (lit "Kind:") (c :: t)); [reflexivity|].
  destruct (startswith (lit "Language:") (c :: t)); reflexivity.
Qed.

(** C6, as the code has it: when [x] is itself a result of
    [clean_subtitles] and holds none of the removable patterns, cleaning
    the cleaned [x] once more changes nothing; cleaning [x] itself gives
    [x] back unless [x] starts with "WEBVTT", "Kind:" or "Language:", and
    then it gives the empty text. *)
Theorem clean_twice (y x : str) :
  clean_subtitles y = Return x ->
  pattern_free x = true ->
  (z <- clean_subtitles x ;; clean_subtitles z) = clean_subtitles x
  /\ (header_line x = false -> clean_subtitles x = Return x)
  /\ (header_line x = true -> clean_subtitles x = Return []).
Proof.
  rewrite clean_subtitles_returns. intros Hx Hp. injection Hx as Hx.
  unfold scrub in Hx. rewrite strip_collapse_words in Hx.
  pose proof (words_are_words
                (remove_align (remove_timestamps (remove_tags (body y)))))
    as Hw.
  assert (Hs : scrub x = x).
  { rewrite (scrub_pattern_free _ Hp), strip_collapse_words.
    rewrite <- Hx at 1. rewrite (words_unwords _ Hw). exact Hx. }
  assert (Hl : forallb no_break x = true).
  { rewrite <- Hx. apply unwords_no_break, Hw. }
  pose proof (body_of_line x Hl) as Hb.
  rewrite (clean_subtitles_returns x). simpl Py.bind.
  rewrite clean_subtitles_returns.
  destruct (header_line x); rewrite Hb.
  - split; [reflexivity|]. split; [discriminate|reflexivity].
  - rewrite Hs, Hb, Hs.
    split; [reflexivity|]. split; [reflexivity|discriminate].
Qed.

Lemma clean_twice_witness :
  clean_subtitles scenario_a = Return (lit "Hello world")
  /\ pattern_free (lit "Hello world") = true
  /\ (z <- clean_subtitles (lit "Hello world") ;; clean_subtitles z)
     = clean_subtitles (lit "Hello world")
  /\ clean_subtitles (lit "Hello world") = Return (lit "Hello world").
Proof.
  split; [reflexivity|]. split; [reflexivity|].
  split.
  - exact (proj1 (clean_twice scenario_a (lit "Hello world")
                    eq_refl eq_refl)).
  - exact (proj1 (proj2 (clean_twice scenario_a (lit "Hello world")
                           eq_refl eq_refl)) eq_refl).
Defined.

(** C6, as stated, fails: "Kind: captions Hello" is a result of
    [clean_subtitles], that of a document whose header lines come in
    another order, and it holds no markup, cue timing or positioning
    artifact; yet cleaning changes it further, into the empty text. *)
Lemma clean_changes_clean_text :
  clean_subtitles swapped_header = Return (lit "Kind: captions Hello")
  /\ pattern_free (lit "Kind: captions Hello") = true
  /\ clean_subtitles (lit "Kind: captions Hello") = Return []
  /\ lit "Kind: captions Hello" <> [].
Proof.
  split; [vm_compute; reflexivity|]. split; [vm_compute; reflexivity|].
  split; [vm_compute; reflexivity|discriminate].
Qed.

(** ** The header without its "Kind:" line *)

Lemma language_not_kind (l : str) :
  startswith (lit "Language:") l = true ->
  startswith (lit "Kind:") l = false.
Proof.
  destruct l as [|c t]; [discriminate|].
  unfold lit. cbn [list_ascii_of_string startswith].
  destruct (Ascii.eqb "L" c) eqn:E; [|discriminate].
  apply Ascii.eqb_eq in E. subst c. reflexivity.
Qed.

(** C7: the three checks run one after the other, each on the first line
    that is left; so with a "WEBVTT" line followed at once by a "Language:"
    line, and no "Kind:" line between them, exactly these two lines go and
    the lines after them are cleaned as they are. *)
Theorem header_without_kind (s w l : str) (rest : list str) :
  splitlines s = w :: l :: rest ->
  startswith (lit "WEBVTT") w = true ->
  startswith (lit "Language:") l = true ->
  (forall lines,
      strip_header lines
      = Return (without_first "Language:"
                  (without_first "Kind:" (without_first "WEBVTT" lines))))
  /\ strip_header (splitlines s) = Return rest
  /\ clean_subtitles s = Return (scrub (join_lines rest)).
Proof.
  intros Hs Hw Hl.
  assert (Hh : header_stripped (w :: l :: rest) = rest).
  { unfold header_stripped.
    assert (E1 : without_first "WEBVTT" (w :: l :: rest) = l :: rest)
      by (unfold without_first; rewrite Hw; reflexivity).
    assert (E2 : without_first "Kind:" (l :: rest) = l :: rest)
      by (unfold without_first; rewrite (language_not_kind _ Hl);
          reflexivity).
    rewrite E1, E2. unfold without_first. rewrite Hl. reflexivity. }
  split; [exact strip_header_returns|].
  split.
  - rewrite strip_header_returns, Hs, Hh. reflexivity.
  - rewrite clean_subtitles_returns. unfold body. rewrite Hs, Hh.
    reflexivity.
Qed.

Lemma header_without_kind_witness :
  splitlines no_kind_sample
  = [lit "WEBVTT"; lit "Language: en"; []; lit "Kind: of  blue"]
  /\ strip_header (splitlines no_kind_sample)
     = Return [[]; lit "Kind: of  blue"]
  /\ clean_subtitles no_kind_sample = Return (lit "Kind: of blue").
Proof.
  split; [reflexivity|].
  exact (proj2 (header_without_kind no_kind_sample (lit "WEBVTT")
                  (lit "Language: en") [[]; lit "Kind: of  blue"]
                  eq_refl eq_refl eq_refl)).
Defined.

(** ** The positioning artifact *)

Section Align.

Lemma skipn_prefix (a b : str) (n : nat) :
  n = List.length a -> skipn n (a ++ b) = b.
Proof.
  intros ->. rewrite skipn_app, skipn_all, Nat.sub_diag. reflexivity.
Qed.

Lemma is_char_refl (a : ascii) : is_char a a = true.
Proof. unfold is_char. apply Ascii.eqb_refl. Qed.

Lemma match_len_chars (p : string) (r : Re.regex) (x : str) :
  Re.match_len (Re.chars p ++ r) (lit p ++ x)
  = option_map (Nat.add (String.length p)) (Re.match_len r x).
Proof.
  induction p as [|a p' IH].
  - simpl. destruct (Re.match_len r x); reflexivity.
  - change (Re.chars (String a p') ++ r)
      with (Re.One (is_char a) :: (Re.chars p' ++ r)).
    change (lit (String a p') ++ x) with (a :: (lit p' ++ x)).
    cbn [Re.match_len]. rewrite is_char_refl, IH.
    destruct (Re.match_len r x); reflexivity.
Qed.

Lemma take_while_stop (p : ascii -> bool) (a : str) (b : ascii) (x : str) :
  forallb p a = true -> p b = false -> take_while p (a ++ b :: x) = a.
Proof.
  intros Ha Hb. induction a as [|c a' IH]; simpl.
  - rewrite Hb. reflexivity.
  - simpl in Ha. apply andb_prop in Ha. destruct Ha as [-> Ha].
    rewrite (IH Ha). reflexivity.
Qed.

Lemma drop_while_stop (p : ascii -> bool) (a : str) (b : ascii) (x : str) :
  forallb p a = true -> p b = false -> drop_while p (a ++ b :: x) = b :: x.
Proof.
  intros Ha Hb. induction a as [|c a' IH]; simpl.
  - rewrite Hb. reflexivity.
  - simpl in Ha. apply andb_prop in Ha. destruct Ha as [-> Ha].
    exact (IH Ha).
Qed.

(** Any value that is not empty and holds no "%" is taken. *)
Lemma value_match (v x : str) :
  v <> [] -> forallb (not_char "%") v = true ->
  Re.match_len [Re.Many1 (not_char "%"); Re.One (is_char "%")]
    (v ++ "%"%char :: x)
  = Some (List.length v + 1).
Proof.
  intros Hv Hp. destruct v as [|c v']; [contradiction|].
  simpl in Hp. apply andb_prop in Hp. destruct Hp as [Hc Hp].
  change ((c :: v') ++ "%"%char :: x) with (c :: (v' ++ "%"%char :: x)).
  cbn [Re.match_len]. rewrite Hc.
  rewrite (take_while_stop _ _ _ _ Hp), (drop_while_stop _ _ _ _ Hp);
    try reflexivity.
Qed.

Lemma align_match (v x : str) :
  v <> [] -> forallb (not_char "%") v = true ->
  Re.match_len Re.align (lit "align:start position:" ++ v ++ "%"%char :: x)
  = Some (21 + (List.length v + 1)).
Proof.
  intros Hv Hp. unfold Re.align.
  rewrite match_len_chars. change (Re.chars "%") with [Re.One (is_char "%")].
  change ([Re.Many1 (not_char "%")] ++ [Re.One (is_char "%")])
    with [Re.Many1 (not_char "%"); Re.One (is_char "%")].
  rewrite (value_match _ _ Hv Hp). reflexivity.
Qed.

Lemma take_while_all (p : ascii -> bool) (s : str) :
  forallb p (take_while p s) = true.
Proof.
  induction s as [|c t IH]; [reflexivity|].
  simpl. destruct (p c) eqn:Hc; [|reflexivity].
  simpl. rewrite Hc. exact IH.
Qed.

Lemma take_while_app (p : ascii -> bool) (a b : str) :
  take_while p (a ++ b)
  = if forallb p a then a ++ take_while p b else take_while p a.
Proof.
  induction a as [|c a' IH]; [reflexivity|].
  simpl. destruct (p c); [|reflexivity].
  simpl. rewrite IH. destruct (forallb p a'); reflexivity.
Qed.


(** A match of the literal part reads the literal itself. *)
Lemma match_len_chars_inv (p : string) (r : Re.regex) (s : str) (m : nat) :
  Re.match_len (Re.chars p ++ r) s = Some m ->
  exists x m', s = lit p ++ x /\ Re.match_len r x = Some m'
               /\ m = String.length p + m'.
Proof.
  revert s m. induction p as [|a p' IH]; intros s m H.
  - exists s, m. auto.
  - change (Re.chars (String a p') ++ r)
      with (Re.One (is_char a) :: (Re.chars p' ++ r)) in H.
    cbn [Re.match_len] in H. destruct s as [|c t]; [discriminate|].
    destruct (is_char a c) eqn:Hc; [|discriminate].
    apply is_char_eq in Hc. subst c.
    destruct (Re.match_len (Re.chars p' ++ r) t) as [m0|] eqn:E;
      [|discriminate].
    injection H as <-.
    destruct (IH _ _ E) as (x & m' & -> & Hx & ->).
    exists x, m'. auto.
Qed.

(** A match of the value ends at the first "%". *)
Lemma value_match_inv (x : str) (m : nat) :
  Re.match_len [Re.Many1 (not_char "%"); Re.One (is_char "%")] x = Some m ->
  exists u y, x = u ++ "%"%char :: y /\ forallb (not_char "%") u = true
              /\ m = List.length u + 1.
Proof.
  destruct x as [|c t]; [discriminate|].
  cbn [Re.match_len]. destruct (not_char "%" c) eqn:Hc; [|discriminate].
  destruct (drop_while (not_char "%") t) as [|e y] eqn:Ed; [discriminate|].
  destruct (is_char "%" e) eqn:He; [|discriminate].
  apply is_char_eq in He. subst e. simpl. intros H. injection H as <-.
  exists (c :: take_while (not_char "%") t), y. split.
  - simpl. rewrite <- Ed, take_drop_while. reflexivity.
  - split; [|reflexivity]. simpl. rewrite Hc. apply take_while_all.
Qed.

Lemma align_match_inv (s : str) (m : nat) :
  Re.match_len Re.align s = Some m ->
  exists u y, s = u ++ "%"%char :: y /\ forallb (not_char "%") u = true
              /\ m = List.length u + 1.
Proof.
  unfold Re.align. intros H.
  apply match_len_chars_inv in H. destruct H as (x & m' & -> & Hx & ->).
  change (Re.chars "%") with [Re.One (is_char "%")] in Hx.
  apply value_match_inv in Hx. destruct Hx as (u & y & -> & Hu & ->).
  exists (lit "align:start position:" ++ u), y. split.
  - rewrite <- app_assoc. reflexivity.
  - split.
    + rewrite forallb_app, Hu. reflexivity.
    + rewrite length_app. simpl. lia.
Qed.

Lemma app_one_assoc (a : str) (c : ascii) (x : str) :
  (a ++ [c]) ++ x = a ++ c :: x.
Proof. rewrite <- (app_assoc a [c] x). reflexivity. Qed.

Lemma app_cons_assoc (a b : str) (c : ascii) (x : str) :
  (a ++ b ++ [c]) ++ x = a ++ b ++ c :: x.
Proof.
  rewrite <- (app_assoc a (b ++ [c]) x), <- (app_assoc b [c] x).
  reflexivity.
Qed.

(** An artifact at the place the scan has reached is passed over. *)
Lemma align_removed_here (v rest : str) :
  v <> [] -> forallb (not_char "%") v = true ->
  remove_align (lit "align:start position:" ++ v ++ "%"%char :: rest)
  = remove_align rest.
Proof.
  intros Hv Hp. unfold remove_align.
  pose proof (align_match v rest Hv Hp) as Hm.
  change (lit "align:start position:" ++ v ++ "%"%char :: rest)
    with ("a"%char :: (lit "lign:start position:" ++ v ++ "%"%char :: rest))
    in Hm |- *.
  rewrite (sub_cons_match Re.align [] _ _ (20 + (List.length v + 1)) Hm).
  apply (f_equal (Re.sub Re.align [])).
  rewrite <- (app_cons_assoc (lit "lign:start position:") v "%" rest).
  apply skipn_prefix. rewrite (length_app (lit "lign:start position:")).
  rewrite (length_app v). reflexivity.
Qed.


Section Occurrence.

Variables occ rest : str.

Hypothesis removed_here : remove_align (occ ++ rest) = remove_align rest.

Hypothesis ends_with_it :
  forall pre m,
    Re.match_len Re.align (pre ++ occ ++ rest) = Some m ->
    m <= List.length pre \/ m = List.length pre + List.length occ.



End Occurrence.

End Align.

Section Before.






End Before.





(** The same artifact seen through the whole of [clean_subtitles]. *)
Example clean_non_numeric_position :
  clean_subtitles (lit "Hello align:start position:abc% world")
  = Return (lit "Hello world").
Proof. vm_compute. reflexivity. Qed.

(** ** The download session *)

Section Session.

Variable E : env.

Lemma remove_tree_lookup (root : string) (fs : Fs.t) :
  Fs.lookup root (Fs.remove_tree root fs) = None.
Proof.
  induction fs as [|[q n] rest IH]; [reflexivity|].
  unfold Fs.remove_tree. simpl filter. unfold Fs.under at 1. simpl fst.
  destruct (String.eqb root q) eqn:Eq; simpl negb.
  - exact IH.
  - destruct (String.prefix (root ++ "/") q); simpl negb; [exact IH|].
    simpl Fs.lookup. rewrite String.eqb_sym, Eq. exact IH.
Qed.

(** Unless [rmtree] raises, nothing is at the path after the cleanup. *)
Lemma cleanup_files_removes (p : string) (fs : Fs.t) :
  rmtree_error E = None ->
  exists fs', cleanup_files E p fs = (Return tt, fs')
              /\ Fs.path_exists fs' p = false.
Proof.
  intros Hrm. unfold cleanup_files, mbind, get_fs.
  destruct (Fs.path_exists fs p) eqn:Hp.
  - unfold rmtree. rewrite Hrm. eexists. split; [reflexivity|].
    unfold Fs.path_exists. rewrite remove_tree_lookup. reflexivity.
  - exists fs. split; [reflexivity|exact Hp].
Qed.

(** [download] is the inner call followed by the cleanup; the clause that
    raises the caught exception again changes nothing. *)
Lemma download_unfold (url : string) (fs : Fs.t) :
  download E url fs
  = let (r, fs1) := download_audio_and_subtitles E url workspace fs in
    match cleanup_files E workspace fs1 with
    | (Return _, fs2) => (r, fs2)
    | (Raise e, fs2) => (Raise e, fs2)
    end.
Proof.
  unfold download, try_finally, try_except, mbind.
  destruct (download_audio_and_subtitles E url workspace fs) as [[a|e] fs1].
  - reflexivity.
  - simpl dispatch. destruct (is_HTTPException e); reflexivity.
Qed.

Lemma inner_unfold (url p : string) (fs fs0 : Fs.t) :
  ensure_dir E p fs = (Return tt, fs0) ->
  download_audio_and_subtitles E url p fs
  = match extract_info E url p fs0 with
    | (Return _, fs1) =>
        if Fs.isfile fs1 (Fs.join p "file.en.vtt") then
          match read_text E (Fs.join p "file.en.vtt") fs1 with
          | (Return text, fs2) =>
              match clean_subtitles text with
              | Return clean_text =>
                  (Return {| subtitles := clean_text |}, fs2)
              | Raise e =>
                  if is_DownloadError e then (Raise extraction_failed, fs2)
                  else if is_Exception e then (Raise (internal_error E e), fs2)
                  else (Raise e, fs2)
              end
          | (Raise e, fs2) =>
              if is_DownloadError e then (Raise extraction_failed, fs2)
              else if is_Exception e then (Raise (internal_error E e), fs2)
              else (Raise e, fs2)
          end
        else (Raise (internal_error E not_found), fs1)
    | (Raise e, fs1) =>
        if is_DownloadError e then (Raise extraction_failed, fs1)
        else if is_Exception e then (Raise (internal_error E e), fs1)
        else (Raise e, fs1)
    end.
Proof.
  intros Hd. unfold download_audio_and_subtitles.
  unfold mbind at 1. rewrite Hd.
  unfold try_except, mbind, get_fs, lift, ret, raise.
  destruct (extract_info E url p fs0) as [[[]|e] fs1].
  - destruct (Fs.isfile fs1 (Fs.join p "file.en.vtt")).
    + destruct (read_text E (Fs.join p "file.en.vtt") fs1) as [[text|e] fs2].
      * destruct (clean_subtitles text) as [c|e]; [reflexivity|].
        simpl dispatch. unfold raise.
        destruct (is_DownloadError e); [reflexivity|].
        destruct (is_Exception e); reflexivity.
      * simpl dispatch. unfold raise.
        destruct (is_DownloadError e); [reflexivity|].
        destruct (is_Exception e); reflexivity.
    + reflexivity.
  - simpl dispatch. unfold raise.
    destruct (is_DownloadError e); [reflexivity|].
    destruct (is_Exception e); reflexivity.
Qed.

End Session.

(** ** The cleanup and the classes of failure *)

Section SessionFacts.

Variable E : env.

Lemma remove_tree_under (root q : string) (fs : Fs.t) :
  Fs.under root q = true -> Fs.lookup q (Fs.remove_tree root fs) = None.
Proof.
  intros Hq. induction fs as [|[q' n] rest IH]; [reflexivity|].
  unfold Fs.remove_tree. simpl filter.
  destruct (Fs.under root q') eqn:Hu; simpl negb; [exact IH|].
  simpl Fs.lookup. destruct (String.eqb q' q) eqn:Eq; [|exact IH].
  apply String.eqb_eq in Eq. subst q'. rewrite Hq in Hu. discriminate.
Qed.

Lemma under_self (root : string) : Fs.under root root = true.
Proof. unfold Fs.under. rewrite String.eqb_refl. reflexivity. Qed.

Lemma add_dir_exists (fs : Fs.t) (p : string) :
  Fs.path_exists (Fs.add_dir fs p) p = true.
Proof.
  unfold Fs.add_dir. destruct (Fs.path_exists fs p) eqn:Hp; [exact Hp|].
  unfold Fs.path_exists. simpl. rewrite String.eqb_refl. reflexivity.
Qed.

Lemma make_dirs_exists (p : string) (fs : Fs.t) :
  Fs.path_exists (Fs.make_dirs p fs) p = true.
Proof.
  unfold Fs.make_dirs. rewrite fold_left_app. simpl.
  apply add_dir_exists.
Qed.

Lemma cleanup_absent (p : string) (fs : Fs.t) :
  Fs.path_exists fs p = false -> cleanup_files E p fs = (Return tt, fs).
Proof.
  intros Hp. unfold cleanup_files, mbind, get_fs. rewrite Hp. reflexivity.
Qed.

Lemma cleanup_returned (p : string) (fs fs' : Fs.t) :
  cleanup_files E p fs = (Return tt, fs') -> Fs.path_exists fs' p = false.
Proof.
  unfold cleanup_files, mbind, get_fs.
  destruct (Fs.path_exists fs p) eqn:Hp.
  - unfold rmtree. destruct (rmtree_error E); [discriminate|].
    intros H. injection H as <-.
    unfold Fs.path_exists. rewrite remove_tree_lookup. reflexivity.
  - unfold ret. intros H. injection H as <-. exact Hp.
Qed.

Lemma cleanup_raises (p : string) (fs : Fs.t) (e : exn) :
  Fs.path_exists fs p = true -> rmtree_error E = Some e ->
  cleanup_files E p fs = (Raise e, fs).
Proof.
  intros Hp He. unfold cleanup_files, mbind, get_fs, rmtree.
  rewrite Hp, He. reflexivity.
Qed.

Lemma cleanup_removes_below (p : string) (fs : Fs.t) :
  Fs.path_exists fs p = true -> rmtree_error E = None ->
  cleanup_files E p fs = (Return tt, Fs.remove_tree p fs).
Proof.
  intros Hp He. unfold cleanup_files, mbind, get_fs, rmtree.
  rewrite Hp, He. reflexivity.
Qed.

(** What the inner call raises once the directory is there. *)
Lemma inner_raises (url p : string) (fs fs0 fs1 : Fs.t) (e : exn) :
  ensure_dir E p fs = (Return tt, fs0) ->
  download_audio_and_subtitles E url p fs = (Raise e, fs1) ->
  e = extraction_failed
  \/ (exists e0, is_DownloadError e0 = false /\ is_Exception e0 = true
                 /\ e = internal_error E e0)
  \/ is_Exception e = false.
Proof.
  intros Hd. rewrite (inner_unfold E url p fs fs0 Hd).
  assert (Hcls : forall (e0 : exn) (s : Fs.t),
             (if is_DownloadError e0 then (Raise extraction_failed, s)
              else if is_Exception e0 then (Raise (internal_error E e0), s)
              else (@Raise response e0, s)) = (Raise e, fs1) ->
             e = extraction_failed
             \/ (exists e1, is_DownloadError e1 = false
                            /\ is_Exception e1 = true
                            /\ e = internal_error E e1)
             \/ is_Exception e = false).
  { intros e0 s. destruct (is_DownloadError e0) eqn:Hde.
    - intros H. injection H as <- _. left. reflexivity.
    - destruct (is_Exception e0) eqn:Hex; intros H; injection H as <- _.
      + right. left. exists e0. auto.
      + right. right. exact Hex. }
  destruct (extract_info E url p fs0) as [[[]|e0] s1]; [|apply Hcls].
  destruct (Fs.isfile s1 (Fs.join p "file.en.vtt")).
  - destruct (read_text E (Fs.join p "file.en.vtt") s1) as [[text|e0] s2];
      [|apply Hcls].
    rewrite clean_subtitles_returns. discriminate.
  - intros H. injection H as <- _. right. left. exists not_found.
    repeat split.
Qed.

End SessionFacts.

(** C1, against the code: when yt-dlp returns and no file is at
    "<workspace>/file.en.vtt", the 404 raised at line 90 is caught by the
    [except Exception] clause of line 94, and the call fails with status
    500, not 404. *)
Theorem missing_captions_status (E : env) (url : string)
    (fs fs0 fs1 : Fs.t) :
  ensure_dir E workspace fs = (Return tt, fs0) ->
  extract_info E url workspace fs0 = (Return tt, fs1) ->
  Fs.isfile fs1 (Fs.join workspace "file.en.vtt") = false ->
  download_audio_and_subtitles E url workspace fs
  = (Raise (HTTPException 500
              ("An error occurred: " ++ exn_text E not_found)), fs1)
  /\ forall fs2,
       cleanup_files E workspace fs1 = (Return tt, fs2) ->
       download E url fs
       = (Raise (HTTPException 500
                   ("An error occurred: " ++ exn_text E not_found)), fs2).
Proof.
  intros Hd He Hf.
  assert (Hi : download_audio_and_subtitles E url workspace fs
               = (Raise (internal_error E not_found), fs1)).
  { rewrite (inner_unfold E url workspace fs fs0 Hd), He, Hf. reflexivity. }
  split; [exact Hi|].
  intros fs2 Hc.
  rewrite download_unfold, Hi. simpl. rewrite Hc. reflexivity.
Qed.

Lemma missing_captions_status_witness :
  download (sample_env writes_nothing None) sample_url []
  = (Raise (HTTPException 500
              "An error occurred: 404: No subtitles found for this video."),
     [("/tmp"%string, Fs.Dir)]).
Proof.
  exact (proj2 (missing_captions_status (sample_env writes_nothing None)
                  sample_url []
                  [("/tmp/audio"%string, Fs.Dir); ("/tmp"%string, Fs.Dir)]
                  [("/tmp/audio"%string, Fs.Dir); ("/tmp"%string, Fs.Dir)]
                  eq_refl eq_refl eq_refl)
               [("/tmp"%string, Fs.Dir)] eq_refl).
Defined.

Lemma workspace_removed_by_cleanup (E : env) (url : string)
    (fs fs1 : Fs.t) (r : outcome response) :
  rmtree_error E = None ->
  download_audio_and_subtitles E url workspace fs = (r, fs1) ->
  exists fs2,
    download E url fs = (r, fs2) /\ Fs.path_exists fs2 workspace = false.
Proof.
  intros Hrm Hi.
  destruct (cleanup_files_removes E workspace fs1 Hrm) as (fs2 & Hc & Hp).
  exists fs2. split; [|exact Hp].
  rewrite download_unfold, Hi. simpl. rewrite Hc. reflexivity.
Qed.

(** The [finally] block after the inner call: when [shutil.rmtree] does
    not raise, or finds no directory, the outcome of the inner call is
    passed on and the workspace is gone with all that was below it. *)
Lemma cleanup_after (E : env) (url : string) (fs fs1 : Fs.t)
    (r : outcome response) :
  download_audio_and_subtitles E url workspace fs = (r, fs1) ->
  rmtree_error E = None \/ Fs.path_exists fs1 workspace = false ->
  exists fs2,
    download E url fs = (r, fs2)
    /\ Fs.path_exists fs2 workspace = false
    /\ (Fs.path_exists fs1 workspace = true ->
        forall q, Fs.under workspace q = true ->
                  Fs.path_exists fs2 q = false).
Proof.
  intros Hi Hok. destruct (Fs.path_exists fs1 workspace) eqn:Hp.
  - destruct Hok as [Hrm|Hf]; [|discriminate].
    exists (Fs.remove_tree workspace fs1). split; [|split].
    + rewrite download_unfold, Hi. cbv beta iota.
      rewrite (cleanup_removes_below E workspace fs1 Hp Hrm).
      reflexivity.
    + unfold Fs.path_exists. rewrite remove_tree_lookup. reflexivity.
    + intros _ q Hq. unfold Fs.path_exists.
      rewrite (remove_tree_under workspace q fs1 Hq). reflexivity.
  - exists fs1. split; [|split].
    + rewrite download_unfold, Hi. cbv beta iota.
      rewrite (cleanup_absent E workspace fs1 Hp). reflexivity.
    + exact Hp.
    + discriminate.
Qed.

(** When the directory is there and [shutil.rmtree] raises, its exception
    takes the place of whatever the inner call gave. *)
Lemma cleanup_raise_after (E : env) (url : string) (fs fs1 : Fs.t)
    (r : outcome response) (e : exn) :
  download_audio_and_subtitles E url workspace fs = (r, fs1) ->
  rmtree_error E = Some e -> Fs.path_exists fs1 workspace = true ->
  fst (download E url fs) = Raise e.
Proof.
  intros Hi He Hp. rewrite download_unfold, Hi. cbv beta iota.
  rewrite (cleanup_raises E workspace fs1 e Hp He). reflexivity.
Qed.

(** C2, as the code has it: whatever the inner call gives, a response or
    any exception, [download] passes it on and nothing is left at the
    workspace path, nor below it when the directory was there, provided
    [shutil.rmtree] does not raise or finds no directory; when the
    directory is there and [shutil.rmtree] raises, the caller gets that
    exception instead. *)
Theorem workspace_after_download (E : env) (url : string) (fs fs1 : Fs.t)
    (r : outcome response) :
  download_audio_and_subtitles E url workspace fs = (r, fs1) ->
  (rmtree_error E = None \/ Fs.path_exists fs1 workspace = false ->
   exists fs2,
     download E url fs = (r, fs2)
     /\ Fs.path_exists fs2 workspace = false
     /\ (Fs.path_exists fs1 workspace = true ->
         forall q, Fs.under workspace q = true ->
                   Fs.path_exists fs2 q = false))
  /\ (forall e, rmtree_error E = Some e ->
                Fs.path_exists fs1 workspace = true ->
                fst (download E url fs) = Raise e).
Proof.
  intros Hi. split.
  - exact (cleanup_after E url fs fs1 r Hi).
  - intros e He Hp. exact (cleanup_raise_after E url fs fs1 r e Hi He Hp).
Qed.

Lemma workspace_after_download_witness :
  exists fs2,
    download (sample_env writes_captions None) sample_url []
    = (Return {| subtitles := lit "Hello world" |}, fs2)
    /\ Fs.path_exists fs2 workspace = false
    /\ (Fs.path_exists
          [("/tmp/audio/file.en.vtt"%string, Fs.File scenario_a);
           ("/tmp/audio"%string, Fs.Dir); ("/tmp"%string, Fs.Dir)]
          workspace = true ->
        forall q, Fs.under workspace q = true ->
                  Fs.path_exists fs2 q = false).
Proof.
  exact (proj1 (workspace_after_download
                  (sample_env writes_captions None) sample_url []
                  [("/tmp/audio/file.en.vtt"%string, Fs.File scenario_a);
                   ("/tmp/audio"%string, Fs.Dir); ("/tmp"%string, Fs.Dir)]
                  (Return {| subtitles := lit "Hello world" |}) eq_refl)
               (or_introl eq_refl)).
Defined.

(** C2, as stated, fails: yt-dlp writes the captions, the inner call
    returns its response, and [shutil.rmtree] raises; the call ends with
    that exception and the workspace directory is still there. *)
Lemma workspace_left_behind :
  fst (download_audio_and_subtitles
         (sample_env writes_captions (Some permission_denied))
         sample_url workspace [])
  = Return {| subtitles := lit "Hello world" |}
  /\ fst (download (sample_env writes_captions (Some permission_denied))
            sample_url [])
     = Raise permission_denied
  /\ Fs.path_exists
       (snd (download (sample_env writes_captions (Some permission_denied))
               sample_url []))
       workspace
     = true.
Proof. repeat split; reflexivity. Qed.

(** C8, as the code has it: when yt-dlp raises [DownloadError] the inner
    call fails with status 400; [download] passes that on and nothing is
    left at the workspace path, nor below it when the directory was there,
    provided [shutil.rmtree] does not raise or finds no directory; when
    the directory is there and [shutil.rmtree] raises, the caller gets
    that exception instead of the status 400. *)
Theorem extraction_failure_outcome (E : env) (url msg : string)
    (fs fs0 fs1 : Fs.t) :
  ensure_dir E workspace fs = (Return tt, fs0) ->
  extract_info E url workspace fs0 = (Raise (DownloadError msg), fs1) ->
  download_audio_and_subtitles E url workspace fs
  = (Raise (HTTPException 400 "Failed to download video or subtitles."), fs1)
  /\ (rmtree_error E = None \/ Fs.path_exists fs1 workspace = false ->
      exists fs2,
        download E url fs
        = (Raise (HTTPException 400 "Failed to download video or subtitles."),
           fs2)
        /\ Fs.path_exists fs2 workspace = false
        /\ (Fs.path_exists fs1 workspace = true ->
            forall q, Fs.under workspace q = true ->
                      Fs.path_exists fs2 q = false))
  /\ (forall e, rmtree_error E = Some e ->
                Fs.path_exists fs1 workspace = true ->
                fst (download E url fs) = Raise e).
Proof.
  intros Hd He.
  assert (Hi : download_audio_and_subtitles E url workspace fs
               = (Raise extraction_failed, fs1)).
  { rewrite (inner_unfold E url workspace fs fs0 Hd), He. reflexivity. }
  split; [exact Hi|]. split.
  - exact (cleanup_after E url fs fs1 _ Hi).
  - intros e Hrm Hp. exact (cleanup_raise_after E url fs fs1 _ e Hi Hrm Hp).
Qed.

Lemma extraction_failure_outcome_witness :
  exists fs2,
    download (sample_env fails_to_download None) sample_url []
    = (Raise (HTTPException 400 "Failed to download video or subtitles."),
       fs2)
    /\ Fs.path_exists fs2 workspace = false
    /\ (Fs.path_exists
          [("/tmp/audio"%string, Fs.Dir); ("/tmp"%string, Fs.Dir)]
          workspace = true ->
        forall q, Fs.under workspace q = true ->
                  Fs.path_exists fs2 q = false).
Proof.
  exact (proj1 (proj2 (extraction_failure_outcome
                         (sample_env fails_to_download None)
                         sample_url "ERROR: unable to download video data" []
                         [("/tmp/audio"%string, Fs.Dir);
                          ("/tmp"%string, Fs.Dir)]
                         [("/tmp/audio"%string, Fs.Dir);
                          ("/tmp"%string, Fs.Dir)]
                         eq_refl eq_refl))
               (or_introl eq_refl)).
Defined.

(** C8, as stated, fails: yt-dlp raises [DownloadError] and
    [shutil.rmtree] raises in its turn; the caller gets the exception of
    [shutil.rmtree], not the status 400, and the workspace directory is
    still there. *)
Lemma extraction_failure_masked :
  fst (download (sample_env fails_to_download (Some permission_denied))
         sample_url [])
  = Raise permission_denied
  /\ Fs.path_exists
       (snd (download (sample_env fails_to_download (Some permission_denied))
               sample_url []))
       workspace
     = true.
Proof. split; reflexivity. Qed.

(** C5, as the code has it: a failure of the inner call reaches the caller
    when the cleanup returns; when the cleanup raises, the exception of the
    cleanup is the one that reaches the caller, in place of the earlier
    failure. *)
Theorem cleanup_failure_replaces (E : env) (url : string) (fs fs1 : Fs.t)
    (e : exn) :
  download_audio_and_subtitles E url workspace fs = (Raise e, fs1) ->
  (forall fs2, cleanup_files E workspace fs1 = (Return tt, fs2) ->
               download E url fs = (Raise e, fs2))
  /\ (forall e' fs2, cleanup_files E workspace fs1 = (Raise e', fs2) ->
                     download E url fs = (Raise e', fs2)).
Proof.
  intros Hi. split.
  - intros fs2 Hc. rewrite download_unfold, Hi. simpl. rewrite Hc.
    reflexivity.
  - intros e' fs2 Hc. rewrite download_unfold, Hi. simpl. rewrite Hc.
    reflexivity.
Qed.

Lemma cleanup_failure_replaces_witness :
  download (sample_env fails_to_download (Some permission_denied))
    sample_url []
  = (Raise permission_denied,
     [("/tmp/audio"%string, Fs.Dir); ("/tmp"%string, Fs.Dir)]).
Proof.
  exact (proj2 (cleanup_failure_replaces
                  (sample_env fails_to_download (Some permission_denied))
                  sample_url []
                  [("/tmp/audio"%string, Fs.Dir); ("/tmp"%string, Fs.Dir)]
                  extraction_failed eq_refl)
               permission_denied
               [("/tmp/audio"%string, Fs.Dir); ("/tmp"%string, Fs.Dir)]
               eq_refl).
Defined.

(** C5, as stated, fails: yt-dlp raises [DownloadError], which the inner
    call turns into status 400, and [shutil.rmtree] then raises; the caller
    gets the error of [shutil.rmtree], not the status 400. *)
Lemma cleanup_failure_masks :
  fst (download_audio_and_subtitles
         (sample_env fails_to_download (Some permission_denied))
         sample_url workspace [])
  = Raise (HTTPException 400 "Failed to download video or subtitles.")
  /\ fst (download (sample_env fails_to_download (Some permission_denied))
            sample_url [])
     = Raise permission_denied.
Proof. split; reflexivity. Qed.

(** ** More on the download session *)

(** X1: a cleanup that has returned leaves nothing to do: a second cleanup
    of the same path returns as well and changes nothing, whether or not
    [shutil.rmtree] would raise. *)
Theorem cleanup_files_twice (E : env) (p : string) (fs fs' : Fs.t) :
  cleanup_files E p fs = (Return tt, fs') ->
  cleanup_files E p fs' = (Return tt, fs').
Proof.
  intros H. apply cleanup_absent. exact (cleanup_returned E p fs fs' H).
Qed.

Lemma cleanup_files_twice_witness :
  cleanup_files (sample_env writes_nothing None) workspace
    [("/tmp"%string, Fs.Dir)]
  = (Return tt, [("/tmp"%string, Fs.Dir)]).
Proof.
  exact (cleanup_files_twice (sample_env writes_nothing None) workspace
           [("/tmp/audio/file.en.vtt"%string, Fs.File scenario_a);
            ("/tmp/audio"%string, Fs.Dir); ("/tmp"%string, Fs.Dir)]
           [("/tmp"%string, Fs.Dir)] eq_refl).
Defined.

(** X2: when lines 51 and 52 are passed without an exception, the output
    directory exists, whether it was there before or had to be made. *)
Theorem ensure_dir_makes_it (E : env) (p : string) (fs fs' : Fs.t) :
  ensure_dir E p fs = (Return tt, fs') -> Fs.path_exists fs' p = true.
Proof.
  unfold ensure_dir, mbind, get_fs.
  destruct (Fs.path_exists fs p) eqn:Hp; simpl negb.
  - unfold ret. intros H. injection H as <-. exact Hp.
  - unfold makedirs. destruct (makedirs_error E); [discriminate|].
    intros H. injection H as <-. apply make_dirs_exists.
Qed.

Lemma ensure_dir_makes_it_witness :
  Fs.path_exists [("/tmp/audio"%string, Fs.Dir); ("/tmp"%string, Fs.Dir)]
    workspace = true.
Proof.
  exact (ensure_dir_makes_it (sample_env writes_nothing None) workspace []
           [("/tmp/audio"%string, Fs.Dir); ("/tmp"%string, Fs.Dir)]
           eq_refl).
Defined.

(** X3: the directory is made outside the [try] statement: when it is
    missing and [os.makedirs] raises, that exception leaves [download] as
    it is, not turned into an [HTTPException], and since no directory was
    made the cleanup has nothing to remove. *)
Theorem makedirs_failure_unclassified (E : env) (url : string) (fs : Fs.t)
    (e : exn) :
  Fs.path_exists fs workspace = false ->
  makedirs_error E = Some e ->
  download E url fs = (Raise e, fs).
Proof.
  intros Hp He.
  assert (Hi : download_audio_and_subtitles E url workspace fs
               = (Raise e, fs)).
  { unfold download_audio_and_subtitles, mbind at 1.
    unfold ensure_dir, mbind, get_fs, makedirs. rewrite Hp, He.
    reflexivity. }
  rewrite download_unfold, Hi. cbv beta iota.
  rewrite (cleanup_absent E workspace fs Hp). reflexivity.
Qed.

Lemma makedirs_failure_unclassified_witness :
  download {| extract_info := writes_captions;
              makedirs_error := Some permission_denied;
              read_error := None;
              rmtree_error := Some permission_denied;
              exn_text := describe |} sample_url []
  = (Raise permission_denied, []).
Proof.
  exact (makedirs_failure_unclassified
           {| extract_info := writes_captions;
              makedirs_error := Some permission_denied;
              read_error := None;
              rmtree_error := Some permission_denied;
              exn_text := describe |} sample_url [] permission_denied
           eq_refl eq_refl).
Defined.

(** X4: when yt-dlp returns, the caption file is there and can be read, the
    inner call returns the dictionary whose only entry is the cleaned text
    of that file, and leaves the disk as yt-dlp left it. *)
Theorem captions_are_cleaned (E : env) (url p : string) (fs fs0 fs1 : Fs.t)
    (text : str) :
  ensure_dir E p fs = (Return tt, fs0) ->
  extract_info E url p fs0 = (Return tt, fs1) ->
  Fs.lookup (Fs.join p "file.en.vtt") fs1 = Some (Fs.File text) ->
  read_error E = None ->
  download_audio_and_subtitles E url p fs
  = (Return {| subtitles := scrub (body text) |}, fs1).
Proof.
  intros Hd He Hf Hr.
  rewrite (inner_unfold E url p fs fs0 Hd), He.
  unfold Fs.isfile, read_text. rewrite Hf, Hr.
  rewrite clean_subtitles_returns. reflexivity.
Qed.

Lemma captions_are_cleaned_witness :
  download_audio_and_subtitles (sample_env writes_captions None) sample_url
    workspace []
  = (Return {| subtitles := lit "Hello world" |},
     [("/tmp/audio/file.en.vtt"%string, Fs.File scenario_a);
      ("/tmp/audio"%string, Fs.Dir); ("/tmp"%string, Fs.Dir)]).
Proof.
  exact (captions_are_cleaned (sample_env writes_captions None) sample_url
           workspace []
           [("/tmp/audio"%string, Fs.Dir); ("/tmp"%string, Fs.Dir)]
           [("/tmp/audio/file.en.vtt"%string, Fs.File scenario_a);
            ("/tmp/audio"%string, Fs.Dir); ("/tmp"%string, Fs.Dir)]
           scenario_a eq_refl eq_refl eq_refl eq_refl).
Defined.

(** X5: when the workspace is there at the end of the inner call and
    [shutil.rmtree] does not raise, [download] leaves nothing at or below
    the workspace path: the caption file and whatever else yt-dlp wrote
    there are gone with the directory. *)
Theorem workspace_emptied (E : env) (url : string) (fs fs1 : Fs.t)
    (r : outcome response) :
  rmtree_error E = None ->
  download_audio_and_subtitles E url workspace fs = (r, fs1) ->
  Fs.path_exists fs1 workspace = true ->
  exists fs2,
    download E url fs = (r, fs2)
    /\ forall q, Fs.under workspace q = true -> Fs.path_exists fs2 q = false.
Proof.
  intros Hrm Hi Hp. exists (Fs.remove_tree workspace fs1). split.
  - rewrite download_unfold, Hi. cbv beta iota.
    rewrite (cleanup_removes_below E workspace fs1 Hp Hrm). reflexivity.
  - intros q Hq. unfold Fs.path_exists.
    rewrite (remove_tree_under workspace q fs1 Hq). reflexivity.
Qed.

Lemma workspace_emptied_witness :
  exists fs2,
    download (sample_env writes_captions None) sample_url []
    = (Return {| subtitles := lit "Hello world" |}, fs2)
    /\ forall q, Fs.under workspace q = true -> Fs.path_exists fs2 q = false.
Proof.
  exact (workspace_emptied (sample_env writes_captions None) sample_url []
           [("/tmp/audio/file.en.vtt"%string, Fs.File scenario_a);
            ("/tmp/audio"%string, Fs.Dir); ("/tmp"%string, Fs.Dir)]
           (Return {| subtitles := lit "Hello world" |})
           eq_refl eq_refl eq_refl).
Defined.

(** X6: once the directory is there, whatever goes wrong in the inner call
    leaves it as status 400, as status 500, or as an exception that does
    not derive from [Exception]; no exception with status 404 leaves it. *)
Theorem failures_are_400_or_500 (E : env) (url p : string)
    (fs fs0 fs1 : Fs.t) (e : exn) :
  ensure_dir E p fs = (Return tt, fs0) ->
  download_audio_and_subtitles E url p fs = (Raise e, fs1) ->
  (e = HTTPException 400 "Failed to download video or subtitles."
   \/ (exists e0, is_DownloadError e0 = false /\ is_Exception e0 = true
                  /\ e = HTTPException 500
                           ("An error occurred: " ++ exn_text E e0))
   \/ is_Exception e = false)
  /\ forall detail, e <> HTTPException 404 detail.
Proof.
  intros Hd Hi.
  pose proof (inner_raises E url p fs fs0 fs1 e Hd Hi) as H.
  split; [exact H|].
  intros detail Heq. subst e.
  destruct H as [H|[(e0 & _ & _ & H)|H]]; discriminate.
Qed.

Lemma failures_are_400_or_500_witness :
  (HTTPException 500 "An error occurred: 404: No subtitles found for this video."
   = HTTPException 400 "Failed to download video or subtitles."
   \/ (exists e0,
          is_DownloadError e0 = false /\ is_Exception e0 = true
          /\ HTTPException 500
               "An error occurred: 404: No subtitles found for this video."
             = HTTPException 500 ("An error occurred: " ++ describe e0))
   \/ is_Exception
        (HTTPException 500
           "An error occurred: 404: No subtitles found for this video.")
      = false)
  /\ forall detail,
       HTTPException 500
         "An error occurred: 404: No subtitles found for this video."
       <> HTTPException 404 detail.
Proof.
  exact (failures_are_400_or_500 (sample_env writes_nothing None) sample_url
           workspace []
           [("/tmp/audio"%string, Fs.Dir); ("/tmp"%string, Fs.Dir)]
           [("/tmp/audio"%string, Fs.Dir); ("/tmp"%string, Fs.Dir)]
           (HTTPException 500
              "An error occurred: 404: No subtitles found for this video.")
           eq_refl eq_refl).
Defined.

(** X7: when the caption file is there and reading it raises an exception
    that derives from [Exception], a decoding error for one, the inner call
    fails with status 500 and the text of that exception in its detail. *)
Theorem read_failure_status (E : env) (url p : string) (fs fs0 fs1 : Fs.t)
    (e : exn) :
  ensure_dir E p fs = (Return tt, fs0) ->
  extract_info E url p fs0 = (Return tt, fs1) ->
  Fs.isfile fs1 (Fs.join p "file.en.vtt") = true ->
  read_error E = Some e ->
  is_DownloadError e = false -> is_Exception e = true ->
  download_audio_and_subtitles E url p fs
  = (Raise (HTTPException 500 ("An error occurred: " ++ exn_text E e)), fs1).
Proof.
  intros Hd He Hf Hr Hde Hex.
  rewrite (inner_unfold E url p fs fs0 Hd), He, Hf.
  unfold read_text. rewrite Hr, Hde, Hex. reflexivity.
Qed.

Lemma read_failure_status_witness :
  download_audio_and_subtitles
    {| extract_info := writes_captions;
       makedirs_error := None;
       read_error := Some (UnicodeDecodeError "invalid start byte");
       rmtree_error := None;
       exn_text := describe |} sample_url workspace []
  = (Raise (HTTPException 500 "An error occurred: invalid start byte"),
     [("/tmp/audio/file.en.vtt"%string, Fs.File scenario_a);
      ("/tmp/audio"%string, Fs.Dir); ("/tmp"%string, Fs.Dir)]).
Proof.
  exact (read_failure_status
           {| extract_info := writes_captions;
              makedirs_error := None;
              read_error := Some (UnicodeDecodeError "invalid start byte");
              rmtree_error := None;
              exn_text := describe |} sample_url workspace []
           [("/tmp/audio"%string, Fs.Dir); ("/tmp"%string, Fs.Dir)]
           [("/tmp/audio/file.en.vtt"%string, Fs.File scenario_a);
            ("/tmp/audio"%string, Fs.Dir); ("/tmp"%string, Fs.Dir)]
           (UnicodeDecodeError "invalid start byte")
           eq_refl eq_refl eq_refl eq_refl eq_refl eq_refl).
Defined.

(** X8: an exception of yt-dlp that does not derive from [Exception], a
    keyboard interrupt for one, is caught by neither clause of the inner
    call nor by [download]: it reaches the caller as it is, after the
    cleanup, which leaves nothing at the workspace path when
    [shutil.rmtree] does not raise. *)
Theorem interrupt_passes_through (E : env) (url : string)
    (fs fs0 fs1 : Fs.t) (e : exn) :
  rmtree_error E = None ->
  ensure_dir E workspace fs = (Return tt, fs0) ->
  extract_info E url workspace fs0 = (Raise e, fs1) ->
  is_Exception e = false ->
  exists fs2,
    download E url fs = (Raise e, fs2)
    /\ Fs.path_exists fs2 workspace = false.
Proof.
  intros Hrm Hd He Hex.
  apply (workspace_removed_by_cleanup E url fs fs1 _ Hrm).
  rewrite (inner_unfold E url workspace fs fs0 Hd), He, Hex.
  destruct e; try discriminate. reflexivity.
Qed.

Lemma interrupt_passes_through_witness :
  exists fs2,
    download (sample_env interrupted None) sample_url []
    = (Raise KeyboardInterrupt, fs2)
    /\ Fs.path_exists fs2 workspace = false.
Proof.
  exact (interrupt_passes_through (sample_env interrupted None) sample_url []
           [("/tmp/audio"%string, Fs.Dir); ("/tmp"%string, Fs.Dir)]
           [("/tmp/audio"%string, Fs.Dir); ("/tmp"%string, Fs.Dir)]
           KeyboardInterrupt eq_refl eq_refl eq_refl eq_refl).
Defined.

(** X9: the cleanup runs after a response is ready as well: when the inner
    call has returned its response, the workspace is there and
    [shutil.rmtree] raises, the caller gets that exception and the response
    is lost. *)
Theorem response_lost_to_cleanup (E : env) (url : string) (fs fs1 : Fs.t)
    (r : response) (e : exn) :
  download_audio_and_subtitles E url workspace fs = (Return r, fs1) ->
  Fs.path_exists fs1 workspace = true ->
  rmtree_error E = Some e ->
  download E url fs = (Raise e, fs1).
Proof.
  intros Hi Hp He.
  rewrite download_unfold, Hi. cbv beta iota.
  rewrite (cleanup_raises E workspace fs1 e Hp He). reflexivity.
Qed.

Lemma response_lost_to_cleanup_witness :
  download (sample_env writes_captions (Some permission_denied)) sample_url []
  = (Raise permission_denied,
     [("/tmp/audio/file.en.vtt"%string, Fs.File scenario_a);
      ("/tmp/audio"%string, Fs.Dir); ("/tmp"%string, Fs.Dir)]).
Proof.
  exact (response_lost_to_cleanup
           (sample_env writes_captions (Some permission_denied)) sample_url []
           [("/tmp/audio/file.en.vtt"%string, Fs.File scenario_a);
            ("/tmp/audio"%string, Fs.Dir); ("/tmp"%string, Fs.Dir)]
           {| subtitles := lit "Hello world" |} permission_denied
           eq_refl eq_refl eq_refl).
Defined.

(** ** More on the header *)

Section HeaderFacts.

Lemma without_first_split (prefix : string) (lines : list str) :
  (forall l, startswith (lit prefix) l = true -> header_line l = true) ->
  exists dropped,
    lines = dropped ++ without_first prefix lines
    /\ List.length dropped <= 1
    /\ Forall (fun l => header_line l = true) dropped.
Proof.
  intros Hh. destruct lines as [|l ls].
  - exists []. simpl. auto.
  - unfold without_first. destruct (startswith (lit prefix) l) eqn:E.
    + exists [l]. simpl. repeat split; auto.
    + exists []. simpl. auto.
Qed.

Lemma webvtt_is_header (l : str) :
  startswith (lit "WEBVTT") l = true -> header_line l = true.
Proof. unfold header_line. intros ->. reflexivity. Qed.

Lemma kind_is_header (l : str) :
  startswith (lit "Kind:") l = true -> header_line l = true.
Proof.
  unfold header_line. intros ->. rewrite orb_true_r. reflexivity.
Qed.

Lemma language_is_header (l : str) :
  startswith (lit "Language:") l = true -> header_line l = true.
Proof. unfold header_line. intros ->. apply orb_true_r. Qed.

Lemma header_stripped_split (lines : list str) :
  exists dropped,
    lines = dropped ++ header_stripped lines
    /\ List.length dropped <= 3
    /\ Forall (fun l => header_line l = true) dropped.
Proof.
  unfold header_stripped.
  destruct (without_first_split "WEBVTT" lines webvtt_is_header)
    as (d1 & E1 & L1 & F1).
  destruct (without_first_split "Kind:" (without_first "WEBVTT" lines)
              kind_is_header) as (d2 & E2 & L2 & F2).
  destruct (without_first_split "Language:"
              (without_first "Kind:" (without_first "WEBVTT" lines))
              language_is_header) as (d3 & E3 & L3 & F3).
  exists (d1 ++ d2 ++ d3). split; [|split].
  - rewrite <- !app_assoc, <- E3, <- E2. exact E1.
  - rewrite !length_app. lia.
  - apply Forall_app. split; [exact F1|].
    apply Forall_app. split; assumption.
Qed.

End HeaderFacts.

(** X10: the header step never takes more than three lines, takes them
    from the top only, and every line it takes starts with "WEBVTT",
    "Kind:" or "Language:". *)
Theorem header_takes_leading_lines (lines : list str) :
  exists dropped kept,
    strip_header lines = Return kept
    /\ lines = dropped ++ kept
    /\ List.length dropped <= 3
    /\ Forall (fun l => header_line l = true) dropped.
Proof.
  destruct (header_stripped_split lines) as (d & E & L & F).
  exists d, (header_stripped lines).
  split; [apply strip_header_returns|]. auto.
Qed.

(** X11: with the three header lines in their usual order, "WEBVTT",
    "Kind:", "Language:", all three go and what is cleaned is the rest of
    the lines, joined by newlines. *)
Theorem full_header_dropped (s w k l : str) (rest : list str) :
  splitlines s = w :: k :: l :: rest ->
  startswith (lit "WEBVTT") w = true ->
  startswith (lit "Kind:") k = true ->
  startswith (lit "Language:") l = true ->
  clean_subtitles s = Return (scrub (join_lines rest)).
Proof.
  intros Hs Hw Hk Hl. rewrite clean_subtitles_returns. unfold body.
  rewrite Hs. unfold header_stripped.
  assert (E1 : without_first "WEBVTT" (w :: k :: l :: rest) = k :: l :: rest)
    by (unfold without_first; rewrite Hw; reflexivity).
  assert (E2 : without_first "Kind:" (k :: l :: rest) = l :: rest)
    by (unfold without_first; rewrite Hk; reflexivity).
  assert (E3 : without_first "Language:" (l :: rest) = rest)
    by (unfold without_first; rewrite Hl; reflexivity).
  rewrite E1, E2, E3. reflexivity.
Qed.

Lemma full_header_dropped_witness :
  clean_subtitles scenario_a
  = Return (scrub (join_lines
                     [[];
                      lit "00:00:01.000 --> 00:00:02.000 align:start position:0%";
                      lit "Hello <c>world</c>"])).
Proof.
  exact (full_header_dropped scenario_a (lit "WEBVTT") (lit "Kind: captions")
           (lit "Language: en")
           [[];
            lit "00:00:01.000 --> 00:00:02.000 align:start position:0%";
            lit "Hello <c>world</c>"]
           eq_refl eq_refl eq_refl eq_refl).
Defined.

(** ** More on the result *)

Section ResultFacts.

Lemma unwords_text_or_space (ws : list str) :
  Forall (fun w => is_word w = true) ws ->
  forallb text_or_space (unwords ws) = true.
Proof.
  assert (Hw : forall w, forallb nonspace w = true ->
                         forallb text_or_space w = true).
  { induction w as [|c w' IH]; [reflexivity|].
    cbn [forallb]. intros H. apply andb_prop in H. destruct H as [Hc H].
    rewrite (IH H), andb_true_r. unfold text_or_space. rewrite Hc.
    reflexivity. }
  induction 1 as [|w rest Hword Hrest IH]; [reflexivity|].
  pose proof (Hw _ (is_word_nonspace _ Hword)) as Hb.
  destruct rest as [|w2 rest']; [exact Hb|].
  change (unwords (w :: w2 :: rest'))
    with (w ++ SP :: unwords (w2 :: rest')).
  rewrite forallb_app, Hb. cbn [forallb andb]. rewrite IH.
  reflexivity.
Qed.

Lemma scrub_words (s : str) :
  scrub s
  = unwords (words (remove_align (remove_timestamps (remove_tags s)))).
Proof. unfold scrub. apply strip_collapse_words. Qed.

(** The letters of a text are those of its words. *)
Lemma letters_words (s : str) : letters s = List.concat (words s).
Proof.
  induction s as [|c t IH]; [reflexivity|].
  unfold letters in *. cbn [filter]. unfold nonspace at 1.
  destruct (isspace c) eqn:Hc; cbn [negb].
  - rewrite (words_space _ _ Hc). exact IH.
  - rewrite (words_other _ _ Hc), IH.
    destruct (head_is nonspace t); [|reflexivity].
    destruct (words t); reflexivity.
Qed.

Lemma letters_app (a b : str) : letters (a ++ b) = letters a ++ letters b.
Proof. apply filter_app. Qed.

Lemma letters_blank (s : str) :
  forallb isspace s = true -> letters s = [].
Proof.
  induction s as [|c t IH]; [reflexivity|].
  cbn [forallb]. intros H. apply andb_prop in H. destruct H as [Hc H].
  unfold letters in *. cbn [filter]. unfold nonspace at 1. rewrite Hc.
  exact (IH H).
Qed.

Lemma letters_join (lines : list str) :
  letters (join_lines lines) = List.concat (map letters lines).
Proof.
  induction lines as [|l ls IH]; [reflexivity|].
  destruct ls as [|l2 ls'].
  - simpl. rewrite app_nil_r. reflexivity.
  - change (join_lines (l :: l2 :: ls'))
      with (l ++ LF :: join_lines (l2 :: ls')).
    rewrite letters_app.
    change (letters (LF :: join_lines (l2 :: ls')))
      with (letters (join_lines (l2 :: ls'))).
    rewrite IH. reflexivity.
Qed.

Lemma letters_join_split (s : str) :
  letters (join_lines (splitlines s)) = letters s.
Proof. rewrite !letters_words, words_join_split. reflexivity. Qed.

Lemma subseq_refl (a : str) : subseq a a.
Proof. induction a; constructor; assumption. Qed.

Lemma subseq_app_skip (a b : str) : subseq b (a ++ b).
Proof.
  induction a as [|c a' IH]; [apply subseq_refl|].
  apply subseq_skip. exact IH.
Qed.

Lemma subseq_trans (a b c : str) : subseq a b -> subseq b c -> subseq a c.
Proof.
  intros Hab Hbc. revert a Hab.
  induction Hbc as [|x b c Hbc IH|x b c Hbc IH]; intros a Hab.
  - exact Hab.
  - apply subseq_skip. apply IH. exact Hab.
  - inversion Hab as [|y a' b' Ha|y a' b' Ha]; subst.
    + apply subseq_skip. apply IH. exact Ha.
    + apply subseq_keep. apply IH. exact Ha.
Qed.

Lemma subseq_of_nil (a : str) : subseq a [] -> a = [].
Proof. intros H. inversion H. reflexivity. Qed.

(** A substitution whose replacement is whitespace only deletes letters. *)
Lemma letters_sub_from (r : Re.regex) (repl : str) (s : str) :
  forallb isspace repl = true ->
  forall k, subseq (letters (Re.sub_from r repl k s)) (letters s).
Proof.
  intros Hrepl. induction s as [|c t IH]; intros k.
  - destruct k; apply subseq_nil.
  - assert (Hskip : forall x, subseq x (letters t) ->
                              subseq x (letters (c :: t))).
    { intros x Hx. unfold letters. cbn [filter].
      destruct (nonspace c); [apply subseq_skip|]; exact Hx. }
    assert (Hkeep : forall x, subseq (letters x) (letters t) ->
                              subseq (letters (c :: x)) (letters (c :: t))).
    { intros x Hx. unfold letters. cbn [filter].
      destruct (nonspace c); [apply subseq_keep|]; exact Hx. }
    destruct k as [|k]; [|cbn [Re.sub_from]; apply Hskip, IH].
    rewrite sub_from_cons.
    destruct (Re.match_len r (c :: t)) as [[|n]|].
    + apply Hkeep, IH.
    + rewrite letters_app, (letters_blank _ Hrepl). apply Hskip, IH.
    + apply Hkeep, IH.
Qed.

Lemma letters_scrub (s : str) : subseq (letters (scrub s)) (letters s).
Proof.
  rewrite scrub_words, letters_words.
  rewrite (words_unwords _ (words_are_words _)), <- letters_words.
  apply (subseq_trans _ (letters (remove_timestamps (remove_tags s)))).
  { apply (letters_sub_from Re.align [] _ eq_refl). }
  apply (subseq_trans _ (letters (remove_tags s))).
  { apply (letters_sub_from Re.timestamp [] _ eq_refl). }
  apply (letters_sub_from Re.tag [] _ eq_refl).
Qed.

Lemma letters_body (s : str) : subseq (letters (body s)) (letters s).
Proof.
  unfold body. rewrite <- (letters_join_split s), !letters_join.
  destruct (header_stripped_split (splitlines s)) as (d & E & _ & _).
  rewrite E at 2. rewrite map_app, concat_app. apply subseq_app_skip.
Qed.

Lemma trimmed_letters (s : str) :
  trimmed s = true -> letters s = [] -> s = [].
Proof.
  destruct s as [|c t]; [reflexivity|].
  unfold trimmed. cbn [head_is]. intros H.
  apply andb_prop in H. destruct H as [H _].
  unfold letters. cbn [filter]. unfold nonspace at 1.
  destruct (isspace c); [discriminate|]. discriminate.
Qed.

End ResultFacts.

(** X12: what [clean_subtitles] returns is one line: the only whitespace
    character in it is the plain space, and no line boundary is left. *)
Theorem clean_gives_one_line (s : str) :
  exists out,
    clean_subtitles s = Return out
    /\ forallb text_or_space out = true
    /\ forallb no_break out = true.
Proof.
  exists (scrub (body s)). split; [apply clean_subtitles_returns|].
  rewrite scrub_words. split.
  - apply unwords_text_or_space, words_are_words.
  - apply unwords_no_break, words_are_words.
Qed.

(** X13: cleaning only deletes text: the characters of the result that are
    not whitespace are characters of the input, in the order they have
    there. *)
Theorem clean_only_deletes (s : str) :
  exists out,
    clean_subtitles s = Return out /\ subseq (letters out) (letters s).
Proof.
  exists (scrub (body s)). split; [apply clean_subtitles_returns|].
  exact (subseq_trans _ _ _ (letters_scrub (body s)) (letters_body s)).
Qed.

(** X14: an input made of whitespace only, the empty one included, is
    cleaned to the empty text. *)
Theorem blank_gives_empty (s : str) :
  forallb isspace s = true -> clean_subtitles s = Return [].
Proof.
  intros Hs. rewrite clean_subtitles_returns. f_equal.
  apply trimmed_letters; [apply strip_trimmed|].
  apply subseq_of_nil. rewrite <- (letters_blank s Hs).
  exact (subseq_trans _ _ _ (letters_scrub (body s)) (letters_body s)).
Qed.

Lemma blank_gives_empty_witness :
  clean_subtitles [SP; chr 9; CR; LF; chr 160; LF] = Return [].
Proof.
  exact (blank_gives_empty [SP; chr 9; CR; LF; chr 160; LF] eq_refl).
Defined.

(** ** Lengths *)

Section Lengths.

Lemma sub_from_length (r : Re.regex) (repl : str) (s : str) :
  List.length repl <= 1 ->
  forall k, List.length (Re.sub_from r repl k s) <= List.length s.
Proof.
  intros Hrepl. induction s as [|c t IH]; intros k.
  - destruct k; apply Nat.le_refl.
  - destruct k as [|k].
    + rewrite sub_from_cons.
      destruct (Re.match_len r (c :: t)) as [[|n]|].
      * cbn [List.length]. apply le_n_S, IH.
      * rewrite length_app. cbn [List.length].
        pose proof (IH n). lia.
      * cbn [List.length]. apply le_n_S, IH.
    + cbn [Re.sub_from List.length]. pose proof (IH k). lia.
Qed.

Lemma drop_while_length (p : ascii -> bool) (s : str) :
  List.length (drop_while p s) <= List.length s.
Proof.
  induction s as [|c t IH]; [apply Nat.le_refl|].
  cbn [drop_while]. destruct (p c); cbn [List.length]; lia.
Qed.

Lemma strip_length (s : str) : List.length (strip s) <= List.length s.
Proof.
  unfold strip, rstrip, lstrip. rewrite length_rev.
  pose proof (drop_while_length isspace (rev (drop_while isspace s))) as H1.
  rewrite length_rev in H1.
  pose proof (drop_while_length isspace s). lia.
Qed.

Lemma scrub_length (s : str) : List.length (scrub s) <= List.length s.
Proof.
  unfold scrub, collapse, remove_align, remove_timestamps, remove_tags,
    Re.sub.
  pose proof (sub_from_length Re.tag [] s (Nat.le_0_l 1) 0) as H1.
  pose proof (sub_from_length Re.timestamp []
                (Re.sub_from Re.tag [] 0 s) (Nat.le_0_l 1) 0) as H2.
  pose proof (sub_from_length Re.align []
                (Re.sub_from Re.timestamp [] 0 (Re.sub_from Re.tag [] 0 s))
                (Nat.le_0_l 1) 0) as H3.
  pose proof (sub_from_length Re.spaces [SP]
                (Re.sub_from Re.align [] 0
                   (Re.sub_from Re.timestamp [] 0
                      (Re.sub_from Re.tag [] 0 s)))
                (Nat.le_refl 1) 0) as H4.
  pose proof (strip_length
                (Re.sub_from Re.spaces [SP] 0
                   (Re.sub_from Re.align [] 0
                      (Re.sub_from Re.timestamp [] 0
                         (Re.sub_from Re.tag [] 0 s))))) as H5.
  lia.
Qed.

Lemma join_lines_cons_length (l : str) (ls : list str) :
  List.length (join_lines ls) <= List.length (join_lines (l :: ls)).
Proof.
  destruct ls as [|l2 ls']; [apply Nat.le_0_l|].
  change (join_lines (l :: l2 :: ls'))
    with (l ++ LF :: join_lines (l2 :: ls')).
  rewrite length_app. cbn [List.length]. lia.
Qed.

Lemma join_lines_app_length (d ls : list str) :
  List.length (join_lines ls) <= List.length (join_lines (d ++ ls)).
Proof.
  induction d as [|l d' IH]; [apply Nat.le_refl|].
  pose proof (join_lines_cons_length l (d' ++ ls)).
  change ((l :: d') ++ ls) with (l :: (d' ++ ls)). lia.
Qed.

Lemma join_split_length_bounded (n : nat) :
  forall s, List.length s <= n ->
            List.length (join_lines (splitlines s)) <= List.length s.
Proof.
  induction n as [|n IH]; intros s Hs.
  - destruct s; [apply Nat.le_refl|cbn [List.length] in Hs; lia].
  - destruct s as [|c t]; [apply Nat.le_refl|].
    cbn [List.length] in Hs |- *.
    destruct (is_linebreak c) eqn:Hc.
    + rewrite (join_split_break _ _ Hc).
      pose proof (after_break_length c t) as Hl.
      destruct (after_break c t) as [|d u] eqn:E; [apply Nat.le_0_l|].
      cbn [List.length]. apply le_n_S.
      pose proof (IH (d :: u)). lia.
    + rewrite (join_split_other _ _ Hc). cbn [List.length].
      apply le_n_S, IH. lia.
Qed.

Lemma body_length (s : str) : List.length (body s) <= List.length s.
Proof.
  unfold body.
  destruct (header_stripped_split (splitlines s)) as (d & E & _ & _).
  pose proof (join_lines_app_length d (header_stripped (splitlines s)))
    as H1.
  rewrite <- E in H1.
  pose proof (join_split_length_bounded (List.length s) s (Nat.le_refl _)).
  lia.
Qed.

End Lengths.

(** X15: the result is never longer than the input. *)
Theorem clean_not_longer (s : str) :
  exists out,
    clean_subtitles s = Return out /\ List.length out <= List.length s.
Proof.
  exists (scrub (body s)). split; [apply clean_subtitles_returns|].
  pose proof (scrub_length (body s)). pose proof (body_length s). lia.
Qed.

(** ** More on the tags *)

Section TagFacts.

Lemma absent_lt_closed (s : str) :
  existsb (is_char ">") s = false -> lt_closed s = true.
Proof.
  induction s as [|c t IH]; [reflexivity|].
  cbn [existsb lt_closed]. intros H.
  apply orb_false_iff in H. destruct H as [_ H].
  rewrite (IH H), H. cbn [negb]. rewrite orb_true_r. reflexivity.
Qed.

Lemma no_lt_closed (s : str) :
  existsb (is_char "<") s = false -> lt_closed s = true.
Proof.
  induction s as [|c t IH]; [reflexivity|].
  cbn [existsb lt_closed]. intros H.
  apply orb_false_iff in H. destruct H as [Hc H].
  rewrite (IH H), Hc. reflexivity.
Qed.

Lemma not_char_self (a : ascii) : not_char a a = false.
Proof. rewrite not_char_is_char, is_char_refl. reflexivity. Qed.

(** A run of characters other than [a], then [a]. *)
Lemma run_match (a : ascii) (v x : str) :
  v <> [] -> forallb (not_char a) v = true ->
  Re.match_len [Re.Many1 (not_char a); Re.One (is_char a)] (v ++ a :: x)
  = Some (List.length v + 1).
Proof.
  intros Hv Hp. destruct v as [|c v']; [contradiction|].
  cbn [forallb] in Hp. apply andb_prop in Hp. destruct Hp as [Hc Hp].
  change ((c :: v') ++ a :: x) with (c :: (v' ++ a :: x)).
  cbn [Re.match_len]. rewrite Hc.
  rewrite (take_while_stop _ _ _ _ Hp (not_char_self a)).
  rewrite (drop_while_stop _ _ _ _ Hp (not_char_self a)).
  rewrite is_char_refl. reflexivity.
Qed.

Lemma tag_match (v x : str) :
  v <> [] -> forallb (not_char ">") v = true ->
  Re.match_len Re.tag ("<"%char :: v ++ ">"%char :: x)
  = Some (S (List.length v + 1)).
Proof.
  intros Hv Hp.
  change (Re.match_len Re.tag ("<"%char :: v ++ ">"%char :: x))
    with (if is_char "<" "<"
          then option_map S
                 (Re.match_len
                    [Re.Many1 (not_char ">"); Re.One (is_char ">")]
                    (v ++ ">"%char :: x))
          else None).
  rewrite is_char_refl, (run_match ">" v x Hv Hp). reflexivity.
Qed.

End TagFacts.

(** X16: a text in which no "<" or no ">" occurs is left as it is by the
    removal of tags: a lone angle bracket is not markup. *)
Theorem lone_bracket_kept (s : str) :
  existsb (is_char "<") s = false \/ existsb (is_char ">") s = false ->
  remove_tags s = s.
Proof.
  intros H. unfold remove_tags. apply sub_no_occurrence.
  apply lt_closed_no_tag.
  destruct H as [H|H]; [apply no_lt_closed|apply absent_lt_closed];
    exact H.
Qed.

Lemma lone_bracket_kept_witness :
  remove_tags (lit "if a < b then c") = lit "if a < b then c".
Proof.
  exact (lone_bracket_kept (lit "if a < b then c") (or_intror eq_refl)).
Defined.

(** X17: where the removal of tags meets "<", one or more characters other
    than ">", and ">", it deletes all of it; the characters in between may
    be any, line boundaries included. *)
Theorem tag_removed_whole (v rest : str) :
  v <> [] -> forallb (not_char ">") v = true ->
  remove_tags ("<"%char :: v ++ ">"%char :: rest) = remove_tags rest.
Proof.
  intros Hv Hp. unfold remove_tags.
  rewrite (sub_cons_match Re.tag [] _ _ (List.length v + 1)
             (tag_match v rest Hv Hp)).
  apply (f_equal (Re.sub Re.tag [])).
  rewrite <- (app_one_assoc v ">" rest).
  apply skipn_prefix. rewrite length_app. reflexivity.
Qed.

Lemma tag_removed_whole_witness :
  remove_tags ("<"%char :: [ "c"%char; LF; "x"%char ] ++ ">"%char :: lit "Hi")
  = remove_tags (lit "Hi").
Proof.
  exact (tag_removed_whole [ "c"%char; LF; "x"%char ] (lit "Hi")
           (fun H => eq_ind [ "c"%char; LF; "x"%char ]
                       (fun l => match l with [] => False | _ => True end)
                       I [] H)
           eq_refl).
Defined.

(** X18: the result is settled for tags and whitespace: removing tags from
    it, collapsing its whitespace and stripping it give the result back. *)
Theorem clean_result_settled (s : str) :
  exists out,
    clean_subtitles s = Return out
    /\ remove_tags out = out
    /\ strip (collapse out) = out.
Proof.
  exists (scrub (body s)). split; [apply clean_subtitles_returns|].
  split.
  - unfold remove_tags. apply sub_no_occurrence, scrub_no_tag.
  - rewrite strip_collapse_words, scrub_words.
    rewrite (words_unwords _ (words_are_words _)). reflexivity.
Qed.

(** ** More on the cue timing *)

Section ClockFacts.

Lemma match_one (p : ascii -> bool) (r : Re.regex) (c : ascii) (x : str) :
  p c = true ->
  Re.match_len (Re.One p :: r) (c :: x) = option_map S (Re.match_len r x).
Proof. intros H. cbn [Re.match_len]. rewrite H. reflexivity. Qed.

Lemma clock_text_length (d : list ascii) :
  List.length d = 9 -> List.length (clock_text d) = 12.
Proof.
  intros H.
  do 9 (destruct d as [|? d]; [discriminate|]).
  destruct d; [reflexivity|discriminate].
Qed.

Lemma clock_match (d : list ascii) (r : Re.regex) (x : str) :
  List.length d = 9 -> forallb isdigit d = true ->
  Re.match_len (Re.clock ++ r) (clock_text d ++ x)
  = option_map (Nat.add 12) (Re.match_len r x).
Proof.
  intros Hl Hd.
  do 9 (destruct d as [|? d]; [discriminate|]).
  destruct d; [|discriminate].
  cbn [forallb] in Hd.
  repeat (apply andb_prop in Hd; destruct Hd as [? Hd]).
  change (Re.clock ++ r)
    with (Re.One isdigit :: Re.One isdigit :: Re.One (is_char ":")
          :: Re.One isdigit :: Re.One isdigit :: Re.One (is_char ":")
          :: Re.One isdigit :: Re.One isdigit :: Re.One (is_char ".")
          :: Re.One isdigit :: Re.One isdigit :: Re.One isdigit :: r).
  cbn [clock_text app].
  repeat (rewrite match_one by (assumption || apply is_char_refl)).
  destruct (Re.match_len r x); reflexivity.
Qed.

Lemma timestamp_match (d1 d2 : list ascii) (x : str) :
  List.length d1 = 9 -> forallb isdigit d1 = true ->
  List.length d2 = 9 -> forallb isdigit d2 = true ->
  Re.match_len Re.timestamp
    (clock_text d1 ++ lit " --> " ++ clock_text d2 ++ x)
  = Some 29.
Proof.
  intros L1 D1 L2 D2. unfold Re.timestamp.
  rewrite (clock_match d1 _ _ L1 D1), match_len_chars.
  rewrite <- (app_nil_r Re.clock), (clock_match d2 [] x L2 D2).
  reflexivity.
Qed.

(** A match at the start of the text is passed over in one step. *)
Lemma sub_prefix_match (r : Re.regex) (repl a b : str) :
  a <> [] -> Re.match_len r (a ++ b) = Some (List.length a) ->
  Re.sub r repl (a ++ b) = repl ++ Re.sub r repl b.
Proof.
  intros Ha Hm. destruct a as [|c a']; [contradiction|].
  change ((c :: a') ++ b) with (c :: (a' ++ b)) in Hm |- *.
  rewrite (sub_cons_match r repl c (a' ++ b) (List.length a') Hm).
  rewrite (skipn_prefix a' b _ eq_refl). reflexivity.
Qed.

End ClockFacts.

(** X19: the removal of cue timing is lexical: two groups of the shape
    "dd:dd:dd.ddd" with " --> " between them are deleted whatever the
    eighteen decimal digits are, also when they are no time of day. *)
Theorem timestamp_removed (d1 d2 : list ascii) (rest : str) :
  List.length d1 = 9 -> forallb isdigit d1 = true ->
  List.length d2 = 9 -> forallb isdigit d2 = true ->
  remove_timestamps (clock_text d1 ++ lit " --> " ++ clock_text d2 ++ rest)
  = remove_timestamps rest.
Proof.
  intros L1 D1 L2 D2. unfold remove_timestamps.
  pose proof (timestamp_match d1 d2 rest L1 D1 L2 D2) as Hm.
  rewrite (app_assoc (lit " --> ")), app_assoc in Hm |- *.
  apply (sub_prefix_match Re.timestamp []).
  - intros H. apply (f_equal (@List.length ascii)) in H.
    rewrite length_app, (clock_text_length d1 L1) in H. discriminate.
  - rewrite Hm, !length_app, (clock_text_length d1 L1),
      (clock_text_length d2 L2). reflexivity.
Qed.

Lemma timestamp_removed_witness :
  remove_timestamps (lit "99:99:99.999 --> 00:00:00.000 Hello")
  = remove_timestamps (lit " Hello").
Proof.
  exact (timestamp_removed (lit "999999999") (lit "000000000") (lit " Hello")
           eq_refl eq_refl eq_refl eq_refl).
Defined.

(** ** More on the positioning artifact *)

Section PercentFacts.

Lemma occurs_cons (r : Re.regex) (c : ascii) (t : str) :
  Re.occurs r (c :: t)
  = match Re.match_len r (c :: t) with
    | Some _ => true
    | None => Re.occurs r t
    end.
Proof. reflexivity. Qed.

Lemma align_needs_percent (s : str) (m : nat) :
  Re.match_len Re.align s = Some m -> existsb (is_char "%") s = true.
Proof.
  intros H. apply align_match_inv in H.
  destruct H as (u & y & -> & _ & _).
  rewrite existsb_app. cbn [existsb]. rewrite is_char_refl.
  apply orb_true_r.
Qed.

Lemma no_percent_no_align (s : str) :
  existsb (is_char "%") s = false -> Re.occurs Re.align s = false.
Proof.
  induction s as [|c t IH]; intros H; [reflexivity|].
  rewrite occurs_cons.
  destruct (Re.match_len Re.align (c :: t)) as [m|] eqn:E.
  - apply align_needs_percent in E. rewrite E in H. discriminate.
  - apply IH. cbn [existsb] in H. apply orb_false_iff in H. apply H.
Qed.

End PercentFacts.

(** X20: the removal of positioning artifacts needs the closing "%": a text
    without any "%" is left as it is, "align:start position:" and a value
    in it or not. *)
Theorem align_needs_closing (s : str) :
  existsb (is_char "%") s = false -> remove_align s = s.
Proof.
  intros H. unfold remove_align.
  apply sub_no_occurrence, no_percent_no_align, H.
Qed.

Lemma align_needs_closing_witness :
  remove_align (lit "align:start position:50 Hello")
  = lit "align:start position:50 Hello".
Proof.
  exact (align_needs_closing (lit "align:start position:50 Hello") eq_refl).
Defined.

(** X21: the inner call removes nothing: once the directory is there, the
    disk it leaves is the disk yt-dlp left, caption file included, whether
    it returns or raises; only [download] cleans up. *)
Theorem inner_call_keeps_files (E : env) (url p : string)
    (fs fs0 fs1 : Fs.t) (o : outcome unit) :
  ensure_dir E p fs = (Return tt, fs0) ->
  extract_info E url p fs0 = (o, fs1) ->
  snd (download_audio_and_subtitles E url p fs) = fs1.
Proof.
  intros Hd He. rewrite (inner_unfold E url p fs fs0 Hd), He.
  destruct o as [[]|e].
  - destruct (Fs.isfile fs1 (Fs.join p "file.en.vtt")); [|reflexivity].
    unfold read_text. destruct (read_error E) as [e|].
    + destruct (is_DownloadError e); [reflexivity|].
      destruct (is_Exception e); reflexivity.
    + destruct (Fs.lookup (Fs.join p "file.en.vtt") fs1) as [[|text]|];
        try reflexivity.
      rewrite clean_subtitles_returns. reflexivity.
  - destruct (is_DownloadError e); [reflexivity|].
    destruct (is_Exception e); reflexivity.
Qed.

Lemma inner_call_keeps_files_witness :
  snd (download_audio_and_subtitles (sample_env writes_captions None)
         sample_url workspace [])
  = [("/tmp/audio/file.en.vtt"%string, Fs.File scenario_a);
     ("/tmp/audio"%string, Fs.Dir); ("/tmp"%string, Fs.Dir)].
Proof.
  exact (inner_call_keeps_files (sample_env writes_captions None) sample_url
           workspace []
           [("/tmp/audio"%string, Fs.Dir); ("/tmp"%string, Fs.Dir)]
           [("/tmp/audio/file.en.vtt"%string, Fs.File scenario_a);
            ("/tmp/audio"%string, Fs.Dir); ("/tmp"%string, Fs.Dir)]
           (Return tt) eq_refl eq_refl).
Defined.

(** ** A text made of pieces *)

Section Inert.

Variable r : Re.regex.
Variable repl : str.

(** A stretch in which no match begins is copied. *)
Lemma inert_copy (seg rest : str) :
  (forall a b, seg = a ++ b -> b <> [] ->
               Re.match_len r (b ++ rest) = None) ->
  Re.sub r repl (seg ++ rest) = seg ++ Re.sub r repl rest.
Proof.
  induction seg as [|c t IH]; intros H; [reflexivity|].
  rewrite <- app_comm_cons.
  rewrite sub_cons_none.
  - rewrite IH; [reflexivity|].
    intros a b E Hb. apply (H (c :: a) b); [|exact Hb].
    rewrite E. reflexivity.
  - rewrite app_comm_cons. apply (H [] (c :: t)); [reflexivity|].
    discriminate.
Qed.

End Inert.

Section Pieces.

Lemma first_inert (p : ascii -> bool) (r' : Re.regex) (repl seg rest : str) :
  (forall c, In c seg -> p c = false) ->
  Re.sub (Re.One p :: r') repl (seg ++ rest)
  = seg ++ Re.sub (Re.One p :: r') repl rest.
Proof.
  intros H. apply inert_copy. intros a b E Hb.
  destruct b as [|c b']; [contradiction|].
  rewrite <- app_comm_cons. cbn [Re.match_len].
  rewrite (H c); [reflexivity|]. rewrite E. apply in_or_app. right.
  left. reflexivity.
Qed.

Lemma tag_shape :
  Re.tag
  = Re.One (is_char "<")
    :: [Re.Many1 (not_char ">"); Re.One (is_char ">")].
Proof. reflexivity. Qed.

Lemma timestamp_shape :
  Re.timestamp = Re.One isdigit :: tl Re.timestamp.
Proof. reflexivity. Qed.

Lemma digit_is_not (a c : ascii) :
  isdigit a = false -> isdigit c = true -> is_char a c = false.
Proof.
  intros Ha Hc. destruct (is_char a c) eqn:E; [|reflexivity].
  apply is_char_eq in E. subst c. rewrite Ha in Hc. discriminate.
Qed.

Lemma digit_not_char (a c : ascii) :
  isdigit a = false -> isdigit c = true -> not_char a c = true.
Proof.
  intros Ha Hc. rewrite not_char_is_char, (digit_is_not a c Ha Hc).
  reflexivity.
Qed.

Lemma digits_not_char (a : ascii) (d : str) :
  isdigit a = false -> forallb isdigit d = true ->
  forallb (not_char a) d = true.
Proof.
  intros Ha. induction d as [|c d' IH]; [reflexivity|].
  cbn [forallb]. intros H. apply andb_prop in H. destruct H as [Hc H].
  rewrite (digit_not_char a c Ha Hc), (IH H). reflexivity.
Qed.

Lemma clock_text_not_char (a : ascii) (d : list ascii) :
  isdigit a = false -> is_char a ":" = false -> is_char a "." = false ->
  forallb isdigit d = true ->
  forallb (not_char a) (clock_text d) = true.
Proof.
  intros Ha Hc Hp Hd.
  pose proof (digits_not_char a d Ha Hd) as Hn.
  do 9 (destruct d as [|? d]; [reflexivity|]).
  destruct d; [|reflexivity].
  cbn [forallb] in Hn.
  repeat (apply andb_prop in Hn; destruct Hn as [? Hn]).
  cbn [clock_text forallb]. rewrite !not_char_is_char, Hc, Hp.
  rewrite <- !not_char_is_char.
  repeat match goal with
         | H : not_char a _ = true |- _ => rewrite H; clear H
         end.
  reflexivity.
Qed.

(** The colons of a text. *)
Lemma colon_far_plain (k : nat) (p rest : str) :
  forallb (not_char ":") p = true ->
  colon_far k rest -> colon_far k (p ++ rest).
Proof.
  intros Hp [H|H]; unfold colon_far.
  - left. rewrite drop_while_app, Hp. exact H.
  - right. rewrite take_while_app, Hp, length_app. lia.
Qed.

Lemma colon_far_nil (k : nat) : colon_far k [].
Proof. left. reflexivity. Qed.

Lemma colon_far_after (k : nat) (a x : str) :
  forallb (not_char ":") a = true -> k <= List.length a ->
  colon_far k (a ++ ":"%char :: x).
Proof.
  intros Ha Hk. right.
  rewrite (take_while_stop _ _ _ _ Ha (not_char_self ":")). exact Hk.
Qed.

Lemma colon_inert (r : Re.regex) (k : nat) (b rest : str) :
  (forall y m, Re.match_len r y = Some m ->
               List.length (take_while (not_char ":") y) = k
               /\ drop_while (not_char ":") y <> []) ->
  b <> [] -> forallb (not_char ":") b = true -> colon_far k rest ->
  Re.match_len r (b ++ rest) = None.
Proof.
  intros Hr Hb Hc Hfar.
  destruct (Re.match_len r (b ++ rest)) as [m|] eqn:E; [|reflexivity].
  apply Hr in E. destruct E as [Hl Hd].
  rewrite take_while_app, Hc, length_app in Hl.
  rewrite drop_while_app, Hc in Hd.
  destruct Hfar as [H|H]; [contradiction|].
  destruct b; [contradiction|]. cbn [List.length] in Hl. lia.
Qed.

Lemma colon_inert_copy (r : Re.regex) (repl : str) (k : nat)
    (seg rest : str) :
  (forall y m, Re.match_len r y = Some m ->
               List.length (take_while (not_char ":") y) = k
               /\ drop_while (not_char ":") y <> []) ->
  forallb (not_char ":") seg = true -> colon_far k rest ->
  Re.sub r repl (seg ++ rest) = seg ++ Re.sub r repl rest.
Proof.
  intros Hr Hc Hfar. apply inert_copy. intros a b E Hb.
  apply (colon_inert r k b rest Hr Hb); [|exact Hfar].
  rewrite E, forallb_app in Hc. apply andb_prop in Hc. apply Hc.
Qed.

Lemma timestamp_colon (y : str) (m : nat) :
  Re.match_len Re.timestamp y = Some m ->
  List.length (take_while (not_char ":") y) = 2
  /\ drop_while (not_char ":") y <> [].
Proof.
  change Re.timestamp
    with (Re.One isdigit :: Re.One isdigit :: Re.One (is_char ":")
          :: tl (tl (tl Re.timestamp))).
  destruct y as [|c1 [|c2 [|c3 y']]]; cbn [Re.match_len].
  - discriminate.
  - destruct (isdigit c1); discriminate.
  - destruct (isdigit c1); [|discriminate].
    destruct (isdigit c2); discriminate.
  - destruct (isdigit c1) eqn:H1; [|discriminate].
    destruct (isdigit c2) eqn:H2; [|discriminate].
    destruct (is_char ":" c3) eqn:H3; [|discriminate].
    intros _. apply is_char_eq in H3. subst c3.
    cbn [take_while drop_while].
    rewrite (digit_not_char ":" c1 eq_refl H1).
    rewrite (digit_not_char ":" c2 eq_refl H2).
    rewrite (not_char_self ":"). split; [reflexivity|discriminate].
Qed.

Lemma align_colon (y : str) (m : nat) :
  Re.match_len Re.align y = Some m ->
  List.length (take_while (not_char ":") y) = 5
  /\ drop_while (not_char ":") y <> [].
Proof.
  unfold Re.align. intros H. apply match_len_chars_inv in H.
  destruct H as (x & m' & -> & _ & _).
  change (lit "align:start position:" ++ x)
    with (lit "align" ++ ":"%char :: (lit "start position:" ++ x)).
  rewrite (take_while_stop (not_char ":") (lit "align") ":" _ eq_refl
             (not_char_self ":")).
  rewrite (drop_while_stop (not_char ":") (lit "align") ":" _ eq_refl
             (not_char_self ":")).
  split; [reflexivity|discriminate].
Qed.

End Pieces.

Section Passes.

Lemma length_not_zero (v : str) :
  negb (Nat.eqb (List.length v) 0) = true -> v <> [].
Proof. destruct v; [discriminate|]. intros _. discriminate. Qed.

Lemma forallb_In (p : ascii -> bool) (s : str) (c : ascii) :
  forallb p s = true -> In c s -> p c = true.
Proof. intros H Hc. exact (proj1 (forallb_forall p s) H c Hc). Qed.

(** *** The removal of tags *)

Lemma tag_removed_here (v rest : str) :
  v <> [] -> forallb (not_char ">") v = true ->
  remove_tags ("<"%char :: v ++ ">"%char :: rest) = remove_tags rest.
Proof.
  intros Hv Hp. unfold remove_tags.
  rewrite (sub_cons_match Re.tag [] _ _ (List.length v + 1)
             (tag_match v rest Hv Hp)).
  apply (f_equal (Re.sub Re.tag [])).
  rewrite <- (app_one_assoc v ">" rest).
  apply skipn_prefix. rewrite length_app. reflexivity.
Qed.

Lemma no_lt_copied (seg rest : str) :
  forallb (not_char "<") seg = true ->
  remove_tags (seg ++ rest) = seg ++ remove_tags rest.
Proof.
  intros H. unfold remove_tags. rewrite tag_shape.
  apply first_inert. intros c Hc.
  pose proof (forallb_In _ _ _ H Hc) as Hn.
  rewrite not_char_is_char in Hn. apply negb_true_iff in Hn. exact Hn.
Qed.

Lemma render_no_lt (g : segment) :
  well_formed g = true -> is_tag g = false ->
  forallb (not_char "<") (render g) = true.
Proof.
  destruct g as [v|d1 d2|n|p]; cbn [well_formed is_tag render];
    intros Hw Ht; [discriminate| | |].
  - apply andb_prop in Hw. destruct Hw as [H1 H2].
    apply andb_prop in H1. destruct H1 as [_ H1].
    apply andb_prop in H2. destruct H2 as [_ H2].
    rewrite !forallb_app.
    rewrite (clock_text_not_char "<" d1 eq_refl eq_refl eq_refl H1).
    rewrite (clock_text_not_char "<" d2 eq_refl eq_refl eq_refl H2).
    reflexivity.
  - apply andb_prop in Hw. destruct Hw as [_ Hn].
    rewrite !forallb_app, (digits_not_char "<" n eq_refl Hn).
    reflexivity.
  - apply andb_prop in Hw. apply Hw.
Qed.

Lemma tag_pass (segs : list segment) :
  forallb well_formed segs = true ->
  remove_tags (render_all segs)
  = render_all (filter (fun g => negb (is_tag g)) segs).
Proof.
  induction segs as [|g rest IH]; [reflexivity|].
  cbn [forallb render_all filter]. intros H.
  apply andb_prop in H. destruct H as [Hg Hrest].
  destruct (is_tag g) eqn:Ht; cbn [negb].
  - destruct g as [v| | |]; try discriminate.
    cbn [well_formed] in Hg. apply andb_prop in Hg. destruct Hg as [Hv Hp].
    cbn [render]. rewrite <- app_comm_cons, (app_one_assoc v ">").
    rewrite (tag_removed_here v _ (length_not_zero v Hv) Hp).
    exact (IH Hrest).
  - cbn [render_all].
    rewrite (no_lt_copied _ _ (render_no_lt g Hg Ht)), (IH Hrest).
    reflexivity.
Qed.

(** *** The removal of cue timing *)

Lemma timestamp_removed_here (d1 d2 : list ascii) (rest : str) :
  List.length d1 = 9 -> forallb isdigit d1 = true ->
  List.length d2 = 9 -> forallb isdigit d2 = true ->
  remove_timestamps (clock_text d1 ++ lit " --> " ++ clock_text d2 ++ rest)
  = remove_timestamps rest.
Proof.
  intros L1 D1 L2 D2. unfold remove_timestamps.
  pose proof (timestamp_match d1 d2 rest L1 D1 L2 D2) as Hm.
  rewrite (app_assoc (lit " --> ")), app_assoc in Hm |- *.
  apply (sub_prefix_match Re.timestamp []).
  - intros H. apply (f_equal (@List.length ascii)) in H.
    rewrite length_app, (clock_text_length d1 L1) in H. discriminate.
  - rewrite Hm, !length_app, (clock_text_length d1 L1),
      (clock_text_length d2 L2). reflexivity.
Qed.

Lemma no_colon_kept_by_timestamps (seg rest : str) :
  forallb (not_char ":") seg = true -> colon_far 2 rest ->
  remove_timestamps (seg ++ rest) = seg ++ remove_timestamps rest.
Proof.
  intros Hc Hfar. unfold remove_timestamps.
  exact (colon_inert_copy Re.timestamp [] 2 seg rest timestamp_colon
           Hc Hfar).
Qed.

Lemma no_digit_kept_by_timestamps (seg rest : str) :
  forallb (fun c => negb (isdigit c)) seg = true ->
  remove_timestamps (seg ++ rest) = seg ++ remove_timestamps rest.
Proof.
  intros H. unfold remove_timestamps. rewrite timestamp_shape.
  apply first_inert. intros c Hc.
  pose proof (forallb_In _ _ _ H Hc) as Hn.
  apply negb_true_iff in Hn. exact Hn.
Qed.

Lemma position_kept_by_timestamps (n rest : str) :
  forallb isdigit n = true -> colon_far 2 rest ->
  remove_timestamps (render (Position n) ++ rest)
  = render (Position n) ++ remove_timestamps rest.
Proof.
  intros Hn Hfar. cbn [render]. rewrite <- !app_assoc.
  rewrite (no_digit_kept_by_timestamps (lit "align:start position:") _
             eq_refl).
  rewrite (app_assoc n), (no_colon_kept_by_timestamps (n ++ ["%"%char]));
    [rewrite <- app_assoc; reflexivity| |exact Hfar].
  rewrite forallb_app, (digits_not_char ":" n eq_refl Hn). reflexivity.
Qed.

Lemma position_shape (n rest : str) :
  render (Position n) ++ rest
  = lit "align" ++ ":"%char
      :: (lit "start position:" ++ n ++ "%"%char :: rest).
Proof. cbn [render]. rewrite app_cons_assoc. reflexivity. Qed.

Lemma range_colon_far (d1 d2 : list ascii) (rest : str) :
  List.length d1 = 9 -> forallb isdigit d1 = true ->
  colon_far 2 (render (Range d1 d2) ++ rest).
Proof.
  intros L1 D1.
  do 9 (destruct d1 as [|? d1]; [discriminate|]).
  destruct d1; [|discriminate].
  cbn [forallb] in D1.
  repeat (apply andb_prop in D1; destruct D1 as [? D1]).
  cbn [render clock_text app].
  match goal with
  | |- colon_far 2 (?h1 :: ?h2 :: ":"%char :: ?x) =>
      apply (colon_far_after 2 [h1; h2] x)
  end.
  - cbn [forallb].
    rewrite !(digit_not_char ":" _ eq_refl) by assumption. reflexivity.
  - apply Nat.le_refl.
Qed.

Lemma colon_far_past_tags (segs : list segment) :
  forallb past_tags segs = true -> colon_far 2 (render_all segs).
Proof.
  induction segs as [|g rest IH]; [intros _; apply colon_far_nil|].
  cbn [forallb render_all]. intros H.
  apply andb_prop in H. destruct H as [Hg Hrest].
  unfold past_tags in Hg. apply andb_prop in Hg. destruct Hg as [Hw Ht].
  destruct g as [v|d1 d2|n|p]; cbn [well_formed] in Hw.
  - discriminate.
  - apply andb_prop in Hw. destruct Hw as [H1 _].
    apply andb_prop in H1. destruct H1 as [L1 D1].
    apply Nat.eqb_eq in L1. exact (range_colon_far d1 d2 _ L1 D1).
  - rewrite position_shape.
    apply (colon_far_after 2 (lit "align")); [reflexivity|].
    cbn [List.length lit list_ascii_of_string]. lia.
  - apply andb_prop in Hw. destruct Hw as [_ Hc].
    exact (colon_far_plain 2 p _ Hc (IH Hrest)).
Qed.

Lemma timestamp_pass (segs : list segment) :
  forallb past_tags segs = true ->
  remove_timestamps (render_all segs)
  = render_all (filter (fun g => negb (is_range g)) segs).
Proof.
  induction segs as [|g rest IH]; [reflexivity|].
  cbn [forallb render_all filter]. intros H.
  apply andb_prop in H. destruct H as [Hg Hrest].
  pose proof (colon_far_past_tags rest Hrest) as Hfar.
  unfold past_tags in Hg. apply andb_prop in Hg. destruct Hg as [Hw Ht].
  destruct g as [v|d1 d2|n|p]; cbn [well_formed] in Hw;
    cbn [is_range negb render_all].
  - discriminate.
  - apply andb_prop in Hw. destruct Hw as [H1 H2].
    apply andb_prop in H1. destruct H1 as [L1 D1].
    apply andb_prop in H2. destruct H2 as [L2 D2].
    apply Nat.eqb_eq in L1, L2.
    cbn [render]. rewrite <- !app_assoc.
    rewrite (timestamp_removed_here d1 d2 _ L1 D1 L2 D2).
    exact (IH Hrest).
  - apply andb_prop in Hw. destruct Hw as [_ Hn].
    rewrite (position_kept_by_timestamps n _ Hn Hfar), (IH Hrest).
    reflexivity.
  - apply andb_prop in Hw. destruct Hw as [_ Hc].
    cbn [render].
    rewrite (no_colon_kept_by_timestamps p _ Hc Hfar), (IH Hrest).
    reflexivity.
Qed.

(** *** The removal of positioning artifacts *)

Lemma colon_far_past_ranges (segs : list segment) :
  forallb past_ranges segs = true -> colon_far 5 (render_all segs).
Proof.
  induction segs as [|g rest IH]; [intros _; apply colon_far_nil|].
  cbn [forallb render_all]. intros H.
  apply andb_prop in H. destruct H as [Hg Hrest].
  unfold past_ranges, past_tags in Hg.
  apply andb_prop in Hg. destruct Hg as [Hg Hr].
  apply andb_prop in Hg. destruct Hg as [Hw Ht].
  destruct g as [v|d1 d2|n|p]; cbn [well_formed] in Hw.
  - discriminate.
  - discriminate.
  - rewrite position_shape.
    apply (colon_far_after 5 (lit "align")); [reflexivity|].
    apply Nat.le_refl.
  - apply andb_prop in Hw. destruct Hw as [_ Hc].
    exact (colon_far_plain 5 p _ Hc (IH Hrest)).
Qed.

Lemma align_pass (segs : list segment) :
  forallb past_ranges segs = true ->
  remove_align (render_all segs)
  = render_all (filter (fun g => negb (is_position g)) segs).
Proof.
  induction segs as [|g rest IH]; [reflexivity|].
  cbn [forallb render_all filter]. intros H.
  apply andb_prop in H. destruct H as [Hg Hrest].
  pose proof (colon_far_past_ranges rest Hrest) as Hfar.
  unfold past_ranges, past_tags in Hg.
  apply andb_prop in Hg. destruct Hg as [Hg Hr].
  apply andb_prop in Hg. destruct Hg as [Hw Ht].
  destruct g as [v|d1 d2|n|p]; cbn [well_formed] in Hw;
    cbn [is_position negb render_all].
  - discriminate.
  - discriminate.
  - apply andb_prop in Hw. destruct Hw as [Hv Hn].
    cbn [render]. rewrite app_cons_assoc.
    rewrite (align_removed_here n _ (length_not_zero n Hv)
               (digits_not_char "%" n eq_refl Hn)).
    exact (IH Hrest).
  - apply andb_prop in Hw. destruct Hw as [_ Hc].
    cbn [render]. unfold remove_align in IH |- *.
    rewrite (colon_inert_copy Re.align [] 5 p _ align_colon Hc Hfar).
    rewrite (IH Hrest). reflexivity.
Qed.

(** *** The three removals, one after the other *)

Lemma filter_keeps (P q : segment -> bool) (segs : list segment) :
  forallb P segs = true ->
  forallb (fun g => P g && q g) (filter q segs) = true.
Proof.
  induction segs as [|g rest IH]; [reflexivity|].
  cbn [forallb filter]. intros H.
  apply andb_prop in H. destruct H as [Hg Hrest].
  destruct (q g) eqn:Hq; [|exact (IH Hrest)].
  cbn [forallb]. rewrite Hg, Hq, (IH Hrest). reflexivity.
Qed.

Lemma plain_text_left (segs : list segment) :
  render_all
    (filter (fun g => negb (is_position g))
       (filter (fun g => negb (is_range g))
          (filter (fun g => negb (is_tag g)) segs)))
  = plain_text segs.
Proof.
  induction segs as [|g rest IH]; [reflexivity|].
  destruct g; cbn [filter is_tag is_range is_position negb render_all
                   render plain_text]; rewrite ?IH; reflexivity.
Qed.

Lemma removals_leave_plain_text (segs : list segment) :
  forallb well_formed segs = true ->
  remove_align (remove_timestamps (remove_tags (render_all segs)))
  = plain_text segs.
Proof.
  intros H. rewrite (tag_pass segs H).
  pose proof (filter_keeps well_formed (fun g => negb (is_tag g)) segs H)
    as H1.
  change (forallb past_tags (filter (fun g => negb (is_tag g)) segs) = true)
    in H1.
  rewrite (timestamp_pass _ H1).
  pose proof (filter_keeps past_tags (fun g => negb (is_range g)) _ H1)
    as H2.
  change (forallb past_ranges
            (filter (fun g => negb (is_range g))
               (filter (fun g => negb (is_tag g)) segs)) = true) in H2.
  rewrite (align_pass _ H2). apply plain_text_left.
Qed.

End Passes.

(** *** What is left of the pieces *)

Section PlainLeft.

Lemma strip_chars (s : str) (x : ascii) : In x (strip s) -> In x s.
Proof.
  unfold strip. intros H.
  assert (Hl : In x (lstrip s)).
  { rewrite (rstrip_prefix (lstrip s)). apply in_or_app. left. exact H. }
  unfold lstrip in Hl. rewrite <- (take_drop_while isspace s).
  apply in_or_app. right. exact Hl.
Qed.

Lemma collapse_chars (s : str) (x : ascii) :
  In x (collapse s) -> x = SP \/ In x s.
Proof.
  unfold collapse, Re.sub. intros H.
  apply sub_from_chars in H. destruct H as [[H|[]]|H].
  - left. symmetry. exact H.
  - right. exact H.
Qed.

(** What is not in the text and is not the space is not in the text
    collapsed and stripped. *)
Lemma cleaned_absent (a : ascii) (p : str) :
  is_char a SP = false -> forallb (not_char a) p = true ->
  existsb (is_char a) (strip (collapse p)) = false.
Proof.
  intros Hs Hp. apply absent_iff. intros x Hx.
  apply strip_chars, collapse_chars in Hx. destruct Hx as [->|Hx].
  - exact Hs.
  - pose proof (forallb_In _ _ _ Hp Hx) as Hn.
    rewrite not_char_is_char in Hn. apply negb_true_iff in Hn. exact Hn.
Qed.

Lemma plain_text_plain (segs : list segment) :
  forallb well_formed segs = true ->
  forallb (not_char "<") (plain_text segs) = true
  /\ forallb (not_char ":") (plain_text segs) = true.
Proof.
  induction segs as [|g rest IH]; [split; reflexivity|].
  cbn [forallb]. intros H. apply andb_prop in H. destruct H as [Hg Hrest].
  destruct (IH Hrest) as [Hl Hc].
  destruct g as [v|d1 d2|n|p]; cbn [plain_text]; try (split; assumption).
  cbn [well_formed] in Hg. apply andb_prop in Hg. destruct Hg as [Hpl Hpc].
  rewrite !forallb_app, Hl, Hc, Hpl, Hpc. split; reflexivity.
Qed.

(** A pattern whose every match holds a ":" matches nowhere in a text
    without one. *)
Lemma no_colon_no_match (r : Re.regex) (k : nat) (s : str) :
  (forall y m, Re.match_len r y = Some m ->
               List.length (take_while (not_char ":") y) = k
               /\ drop_while (not_char ":") y <> []) ->
  existsb (is_char ":") s = false -> Re.occurs r s = false.
Proof.
  intros Hr. induction s as [|c t IH]; intros H.
  { change (Re.occurs r [])
      with (match Re.match_len r [] with Some _ => true | None => false end).
    destruct (Re.match_len r []) as [m|] eqn:E; [|reflexivity].
    apply Hr in E. destruct E as [_ Hd]. contradiction Hd. reflexivity. }
  rewrite occurs_cons.
  destruct (Re.match_len r (c :: t)) as [m|] eqn:E.
  - apply Hr in E. destruct E as [_ Hd].
    apply drop_while_absent in H. contradiction.
  - apply IH. cbn [existsb] in H. apply orb_false_iff in H. apply H.
Qed.

End PlainLeft.

(** C4, as the code has it: whatever the input, what [clean_subtitles]
    returns holds no angle-bracket tag, no two whitespace characters in a
    row, and no whitespace at either end.  Where the text, after the
    header step, is made of angle-bracket tags, cue-timing ranges,
    "align:start position:NN%" artifacts with a decimal NN, and stretches
    of other text, whitespace or not, that hold neither "<" nor ":", in
    any order and number, the result is that other text alone, its
    whitespace collapsed and its ends stripped, and it holds no cue-timing
    range and no positioning artifact either. *)
Theorem clean_removes_patterns (s : str) (segs : list segment) :
  exists out,
    clean_subtitles s = Return out
    /\ Re.occurs Re.tag out = false
    /\ Re.occurs space_run out = false
    /\ trimmed out = true
    /\ (forallb well_formed segs = true -> body s = render_all segs ->
        out = strip (collapse (plain_text segs))
        /\ Re.occurs Re.timestamp out = false
        /\ Re.occurs Re.align out = false).
Proof.
  exists (scrub (body s)).
  split; [apply clean_subtitles_returns|].
  split; [apply scrub_no_tag|].
  split; [apply scrub_no_space_run|].
  split; [apply strip_trimmed|].
  intros Hw Hb. unfold scrub.
  rewrite Hb, (removals_leave_plain_text segs Hw).
  destruct (plain_text_plain segs Hw) as [_ Hc].
  pose proof (cleaned_absent ":" (plain_text segs) eq_refl Hc) as Ha.
  split; [reflexivity|]. split.
  - exact (no_colon_no_match Re.timestamp 2 _ timestamp_colon Ha).
  - exact (no_colon_no_match Re.align 5 _ align_colon Ha).
Qed.

Lemma clean_removes_patterns_witness :
  forallb well_formed scenario_a_pieces = true
  /\ body scenario_a = render_all scenario_a_pieces
  /\ clean_subtitles scenario_a
     = Return (strip (collapse (plain_text scenario_a_pieces)))
  /\ pattern_free (strip (collapse (plain_text scenario_a_pieces))) = true
  /\ strip (collapse (plain_text scenario_a_pieces)) = lit "Hello world".
Proof.
  destruct (clean_removes_patterns scenario_a scenario_a_pieces)
    as (out & Hr & Ht & _ & _ & Hp).
  assert (Hw : forallb well_formed scenario_a_pieces = true)
    by (vm_compute; reflexivity).
  assert (Hb : body scenario_a = render_all scenario_a_pieces)
    by (vm_compute; reflexivity).
  destruct (Hp Hw Hb) as (Ho & Hs & Ha).
  rewrite Ho in Hr, Ht, Hs, Ha.
  split; [exact Hw|]. split; [exact Hb|]. split; [exact Hr|].
  split; [|vm_compute; reflexivity].
  unfold pattern_free. rewrite Ht, Hs, Ha. reflexivity.
Defined.

(** C4, as stated, fails: a positioning artifact inside an unfinished
    cue-timing range is removed after the timing ranges are, and the range
    it leaves behind is returned. *)
Lemma clean_leaves_timestamp :
  clean_subtitles (lit "00:00:01.000 --> 00:00:02.0align:start position:0%00")
  = Return (lit "00:00:01.000 --> 00:00:02.000")
  /\ Re.occurs Re.timestamp (lit "00:00:01.000 --> 00:00:02.000") = true.
Proof. split; vm_compute; reflexivity. Qed.
